(** * VibeBeat: the playback / queue controller and the search filter

    A shallow embedding of [vibebeat_pyqt.py]: the session state held by
    [VibeBeatApp], the slots wired in [_wire_events], and the text search
    of [_on_search].  Widget layout, styling and dialogs are left out; the
    few widgets whose contents the slots read or write are kept as plain
    fields. *)

From Stdlib Require Import ZArith Ascii String List Bool Lia.
From stdpp Require Import base tactics option list gmap strings pretty.

Local Open Scope string_scope.
Local Open Scope Z_scope.

(** ** Python strings (ASCII fragment)

    [str] values are modelled as [string]; the three methods the source
    uses are [str.strip()], [str.lower()] and the [in] operator.  The
    model covers code points below 128: [lower] maps [A-Z] to [a-z] and
    whitespace is the set Python's [str.isspace] accepts in that range.
    Above 127 Python has further whitespace (U+0085, U+00A0, ...) and
    Unicode case rules, which are not modelled: the statements below
    that range over all texts assume [isascii]. *)
Module PyStr.

Definition isspace (c : ascii) : bool :=
    let n := Z.of_nat (nat_of_ascii c) in
    (((9 <=? n) && (n <=? 13)) || ((28 <=? n) && (n <=? 32)))%Z.

Definition lower_char (c : ascii) : ascii :=
    let n := nat_of_ascii c in
    if ((65 <=? Z.of_nat n) && (Z.of_nat n <=? 90))%Z
    then ascii_of_nat (n + 32) else c.

Fixpoint lower (s : string) : string :=
    match s with
    | EmptyString => EmptyString
    | String c s' => String (lower_char c) (lower s')
    end.

Fixpoint lstrip (s : string) : string :=
    match s with
    | EmptyString => EmptyString
    | String c s' => if isspace c then lstrip s' else s
    end.

Fixpoint rstrip (s : string) : string :=
    match s with
    | EmptyString => EmptyString
    | String c s' =>
        match rstrip s' with
        | EmptyString => if isspace c then EmptyString else String c EmptyString
        | r => String c r
        end
    end.

Definition strip (s : string) : string := rstrip (lstrip s).

Fixpoint startswith (p s : string) : bool :=
    match p, s with
    | EmptyString, _ => true
    | String a p', String b s' => if Ascii.eqb a b then startswith p' s' else false
    | String _ _, EmptyString => false
    end.

  (** [contains needle hay] is Python's [needle in hay]. *)
Fixpoint contains (needle hay : string) : bool :=
    startswith needle hay ||
    match hay with
    | EmptyString => false
    | String _ hay' => contains needle hay'
    end.

  (** Truthiness of a [str]: the empty string is falsy. *)
Definition truthy (s : string) : bool :=
    match s with EmptyString => false | _ => true end.

  (** Every character is whitespace (the empty string included). *)
Fixpoint all_space (s : string) : bool :=
    match s with
    | EmptyString => true
    | String c s' => isspace c && all_space s'
    end.

End PyStr.

(** ** Python lists: indexing with negative indices *)
Module PyList.

  (** [l[i]]: [None] stands for [IndexError]. *)
Definition index {A} (l : list A) (i : Z) : option A :=
    let n := Z.of_nat (length l) in
    if ((0 <=? i) && (i <? n))%Z then l !! Z.to_nat i
    else if ((- n <=? i) && (i <? 0))%Z then l !! Z.to_nat (n + i)
    else None.

End PyList.

(** ** Python dicts in insertion order

    [musicLibrary] is a [Dict[int, Song]]; [_on_search] iterates its
    values, so the insertion order is part of the model. *)
Module PyDict.
Section Dict.
Context {V : Type}.

Fixpoint get (d : list (Z * V)) (k : Z) : option V :=
      match d with
      | [] => None
      | (k', v) :: d' => if Z.eqb k k' then Some v else get d' k
      end.

    (** [d[k] = v]: an existing key keeps its place. *)
Fixpoint set (d : list (Z * V)) (k : Z) (v : V) : list (Z * V) :=
      match d with
      | [] => [(k, v)]
      | (k', v') :: d' =>
          if Z.eqb k k' then (k, v) :: d' else (k', v') :: set d' k v
      end.

Definition keys (d : list (Z * V)) : list Z := map fst d.
Definition values (d : list (Z * V)) : list V := map snd d.

    (** [max(d.keys(), default=dflt)] *)
Definition max_key (d : list (Z * V)) (dflt : Z) : Z :=
      match keys d with
      | [] => dflt
      | k :: ks => fold_left Z.max ks k
      end.
End Dict.
End PyDict.

(** ** Songs *)

(** The [Song] dataclass.  It defines neither [__bool__] nor [__len__],
    so every instance is truthy and [if not song] tests for [None]. *)
Record Song := mkSong {
  id : Z;
  title : string;
  artist : string;
  album : string;
  image : string;
  audio : string;
  duration : string;
  genre : string;
  year : Z;
  liked : bool
}.

#[global] Instance Song_eq_dec : EqDecision Song.
Proof. solve_decision. Defined.

(** ** The media backend

    [QtMultimedia.QMediaPlayer] is an external collaborator.  The model
    keeps what the controller reads back from it ([state()], [volume()],
    [duration()]), the loaded media, and the sequence of calls it has
    received, oldest first.  The effect of each call follows the Qt 5
    documentation: [setVolume] bounds its argument to 0..100, [setMedia]
    leaves the player stopped, [play] and [pause] act on loaded media. *)
Module QMediaPlayer.

Inductive State := StoppedState | PlayingState | PausedState.

Inductive MediaStatus :=
  | UnknownMediaStatus | NoMedia | LoadingMedia | LoadedMedia | StalledMedia
  | BufferingMedia | BufferedMedia | EndOfMedia | InvalidMedia.

(** A call made by the controller.  [SetPositionScaled dur value] is
    [setPosition(int(dur * (value / 1000.0)))] of [_seek_position]: its
    argument is computed in floating point and is kept symbolic. *)
Inductive Call :=
  | SetVolume (v : Z)
  | SetMedia (url : string)
  | Play
  | Pause
  | SetPosition (ms : Z)
  | SetPositionScaled (dur value : Z).

Record t := mk {
  state : State;
  volume : Z;
  media : option string;
  duration : Z;
  calls : list Call
}.

#[global] Instance State_eq_dec : EqDecision State.
Proof. solve_decision. Defined.
#[global] Instance MediaStatus_eq_dec : EqDecision MediaStatus.
Proof. solve_decision. Defined.

(** [QMediaPlayer(self)] *)
Definition new : t :=
  {| state := StoppedState; volume := 100; media := None; duration := 0;
     calls := [] |}.

Definition setVolume (p : t) (v : Z) : t :=
  {| state := state p; volume := Z.max 0 (Z.min 100 v); media := media p;
     duration := duration p; calls := calls p ++ [SetVolume v] |}.

Definition setMedia (p : t) (url : string) : t :=
  {| state := StoppedState; volume := volume p; media := Some url;
     duration := 0; calls := calls p ++ [SetMedia url] |}.

Definition play (p : t) : t :=
  {| state := match media p with Some _ => PlayingState | None => state p end;
     volume := volume p; media := media p; duration := duration p;
     calls := calls p ++ [Play] |}.

Definition pause (p : t) : t :=
  {| state := match media p with Some _ => PausedState | None => state p end;
     volume := volume p; media := media p; duration := duration p;
     calls := calls p ++ [Pause] |}.

(** [setPosition] and the scaled variant only leave a trace: the
    controller never reads [position()]. *)
Definition record (p : t) (c : Call) : t :=
  {| state := state p; volume := volume p; media := media p;
     duration := duration p; calls := calls p ++ [c] |}.

Definition setPosition (p : t) (ms : Z) : t := record p (SetPosition ms).

(** Changes reported by the backend itself. *)
Definition backend_state (p : t) (s : State) : t :=
  {| state := s; volume := volume p; media := media p;
     duration := duration p; calls := calls p |}.

Definition backend_duration (p : t) (d : Z) : t :=
  {| state := state p; volume := volume p; media := media p;
     duration := d; calls := calls p |}.

End QMediaPlayer.

(** ** Widgets read or written by the slots *)

(** A [QToolButton]: its text and the two [QAbstractButton] properties
    [checkable] and [checked].  Qt: "Only checkable buttons can be
    checked", so [setChecked] returns at once on a button that was never
    made checkable. *)
Module QToolButton.

Record t := mk { text : string; checkable : bool; checked : bool }.

(** [QToolButton()] followed by [setText(txt)] *)
Definition new (txt : string) : t :=
  {| text := txt; checkable := false; checked := false |}.

Definition setText (b : t) (txt : string) : t :=
  {| text := txt; checkable := checkable b; checked := checked b |}.

Definition setChecked (b : t) (c : bool) : t :=
  if checkable b
  then {| text := text b; checkable := true; checked := c |}
  else b.

End QToolButton.

(** What a result list shows: a [QLabel] or a row built by
    [_build_list_row]. *)
Inductive Widget :=
  | Label (text : string)
  | ListRow (s : Song).

(** The Liked Songs page after [_populate_liked]: either the
    "No liked songs yet" label or one row per liked id found in the
    library.  Python iterates a [set] in an unspecified order, so the
    rows are kept as a set of ids. *)
Inductive LikedView :=
  | LikedNotBuilt
  | NoLikedYet
  | LikedRows (ids : gset Z).

(** An entry of [userPlaylists]. *)
Record Playlist := mkPlaylist {
  pl_id : Z;
  pl_name : string;
  pl_songs : list Z;
  pl_description : string
}.

(** ** The application state *)

(** The widgets of the player bar and of the result pages.  [playBtn]
    and [muteBtn] hold the button text, [volume] the value of the volume
    slider (range 0..100), [searchClearBtn] its visibility, and
    [messages] the [QMessageBox.information] boxes shown so far (title
    and text, oldest first). *)
Record Widgets := mkWidgets {
  trackTitle : string;
  trackArtist : string;
  likeBtn : QToolButton.t;
  playBtn : string;
  muteBtn : string;
  volume : Z;
  currentTimeLbl : string;
  totalTimeLbl : string;
  searchClearBtn : bool;
  searchResults : list Widget;
  likedView : LikedView;
  playlistList : list string;
  messages : list (string * string)
}.

(** The attributes of [VibeBeatApp].  [MULTIMEDIA_AVAILABLE] is the
    module-level flag set by the guarded import; it never changes.
    [_prevVol] is [None] while the attribute has not been assigned
    ([getattr(self, "_prevVol", 70)] then yields 70). *)
Record App := mkApp {
  MULTIMEDIA_AVAILABLE : bool;
  musicLibrary : list (Z * Song);
  playlist : list Song;
  currentIndex : Z;
  isShuffled : bool;
  isRepeated : bool;
  likedSongs : gset Z;
  userPlaylists : list Playlist;
  player : option QMediaPlayer.t;
  _prevVol : option Z;
  _seekingActive : bool;
  ui : Widgets
}.

(** Field updates. *)

Definition set_trackTitle (v : string) (w : Widgets) : Widgets :=
  {| trackTitle := v; trackArtist := trackArtist w; likeBtn := likeBtn w;
     playBtn := playBtn w; muteBtn := muteBtn w; volume := volume w;
     currentTimeLbl := currentTimeLbl w; totalTimeLbl := totalTimeLbl w;
     searchClearBtn := searchClearBtn w; searchResults := searchResults w;
     likedView := likedView w; playlistList := playlistList w;
     messages := messages w |}.

Definition set_trackArtist (v : string) (w : Widgets) : Widgets :=
  {| trackTitle := trackTitle w; trackArtist := v; likeBtn := likeBtn w;
     playBtn := playBtn w; muteBtn := muteBtn w; volume := volume w;
     currentTimeLbl := currentTimeLbl w; totalTimeLbl := totalTimeLbl w;
     searchClearBtn := searchClearBtn w; searchResults := searchResults w;
     likedView := likedView w; playlistList := playlistList w;
     messages := messages w |}.

Definition set_likeBtn (v : QToolButton.t) (w : Widgets) : Widgets :=
  {| trackTitle := trackTitle w; trackArtist := trackArtist w; likeBtn := v;
     playBtn := playBtn w; muteBtn := muteBtn w; volume := volume w;
     currentTimeLbl := currentTimeLbl w; totalTimeLbl := totalTimeLbl w;
     searchClearBtn := searchClearBtn w; searchResults := searchResults w;
     likedView := likedView w; playlistList := playlistList w;
     messages := messages w |}.

Definition set_playBtn (v : string) (w : Widgets) : Widgets :=
  {| trackTitle := trackTitle w; trackArtist := trackArtist w;
     likeBtn := likeBtn w; playBtn := v; muteBtn := muteBtn w;
     volume := volume w; currentTimeLbl := currentTimeLbl w;
     totalTimeLbl := totalTimeLbl w; searchClearBtn := searchClearBtn w;
     searchResults := searchResults w; likedView := likedView w;
     playlistList := playlistList w; messages := messages w |}.

Definition set_muteBtn (v : string) (w : Widgets) : Widgets :=
  {| trackTitle := trackTitle w; trackArtist := trackArtist w;
     likeBtn := likeBtn w; playBtn := playBtn w; muteBtn := v;
     volume := volume w; currentTimeLbl := currentTimeLbl w;
     totalTimeLbl := totalTimeLbl w; searchClearBtn := searchClearBtn w;
     searchResults := searchResults w; likedView := likedView w;
     playlistList := playlistList w; messages := messages w |}.

Definition set_volume (v : Z) (w : Widgets) : Widgets :=
  {| trackTitle := trackTitle w; trackArtist := trackArtist w;
     likeBtn := likeBtn w; playBtn := playBtn w; muteBtn := muteBtn w;
     volume := v; currentTimeLbl := currentTimeLbl w;
     totalTimeLbl := totalTimeLbl w; searchClearBtn := searchClearBtn w;
     searchResults := searchResults w; likedView := likedView w;
     playlistList := playlistList w; messages := messages w |}.

Definition set_currentTimeLbl (v : string) (w : Widgets) : Widgets :=
  {| trackTitle := trackTitle w; trackArtist := trackArtist w;
     likeBtn := likeBtn w; playBtn := playBtn w; muteBtn := muteBtn w;
     volume := volume w; currentTimeLbl := v; totalTimeLbl := totalTimeLbl w;
     searchClearBtn := searchClearBtn w; searchResults := searchResults w;
     likedView := likedView w; playlistList := playlistList w;
     messages := messages w |}.

Definition set_totalTimeLbl (v : string) (w : Widgets) : Widgets :=
  {| trackTitle := trackTitle w; trackArtist := trackArtist w;
     likeBtn := likeBtn w; playBtn := playBtn w; muteBtn := muteBtn w;
     volume := volume w; currentTimeLbl := currentTimeLbl w;
     totalTimeLbl := v; searchClearBtn := searchClearBtn w;
     searchResults := searchResults w; likedView := likedView w;
     playlistList := playlistList w; messages := messages w |}.

Definition set_searchClearBtn (v : bool) (w : Widgets) : Widgets :=
  {| trackTitle := trackTitle w; trackArtist := trackArtist w;
     likeBtn := likeBtn w; playBtn := playBtn w; muteBtn := muteBtn w;
     volume := volume w; currentTimeLbl := currentTimeLbl w;
     totalTimeLbl := totalTimeLbl w; searchClearBtn := v;
     searchResults := searchResults w; likedView := likedView w;
     playlistList := playlistList w; messages := messages w |}.

Definition set_searchResults (v : list Widget) (w : Widgets) : Widgets :=
  {| trackTitle := trackTitle w; trackArtist := trackArtist w;
     likeBtn := likeBtn w; playBtn := playBtn w; muteBtn := muteBtn w;
     volume := volume w; currentTimeLbl := currentTimeLbl w;
     totalTimeLbl := totalTimeLbl w; searchClearBtn := searchClearBtn w;
     searchResults := v; likedView := likedView w;
     playlistList := playlistList w; messages := messages w |}.

Definition set_likedView (v : LikedView) (w : Widgets) : Widgets :=
  {| trackTitle := trackTitle w; trackArtist := trackArtist w;
     likeBtn := likeBtn w; playBtn := playBtn w; muteBtn := muteBtn w;
     volume := volume w; currentTimeLbl := currentTimeLbl w;
     totalTimeLbl := totalTimeLbl w; searchClearBtn := searchClearBtn w;
     searchResults := searchResults w; likedView := v;
     playlistList := playlistList w; messages := messages w |}.

Definition set_playlistList (v : list string) (w : Widgets) : Widgets :=
  {| trackTitle := trackTitle w; trackArtist := trackArtist w;
     likeBtn := likeBtn w; playBtn := playBtn w; muteBtn := muteBtn w;
     volume := volume w; currentTimeLbl := currentTimeLbl w;
     totalTimeLbl := totalTimeLbl w; searchClearBtn := searchClearBtn w;
     searchResults := searchResults w; likedView := likedView w;
     playlistList := v; messages := messages w |}.

Definition set_messages (v : list (string * string)) (w : Widgets) : Widgets :=
  {| trackTitle := trackTitle w; trackArtist := trackArtist w;
     likeBtn := likeBtn w; playBtn := playBtn w; muteBtn := muteBtn w;
     volume := volume w; currentTimeLbl := currentTimeLbl w;
     totalTimeLbl := totalTimeLbl w; searchClearBtn := searchClearBtn w;
     searchResults := searchResults w; likedView := likedView w;
     playlistList := playlistList w; messages := v |}.

Definition set_MULTIMEDIA_AVAILABLE (v : bool) (a : App) : App :=
  {| MULTIMEDIA_AVAILABLE := v; musicLibrary := musicLibrary a;
     playlist := playlist a; currentIndex := currentIndex a;
     isShuffled := isShuffled a; isRepeated := isRepeated a;
     likedSongs := likedSongs a; userPlaylists := userPlaylists a;
     player := player a; _prevVol := _prevVol a;
     _seekingActive := _seekingActive a; ui := ui a |}.

Definition set_musicLibrary (v : list (Z * Song)) (a : App) : App :=
  {| MULTIMEDIA_AVAILABLE := MULTIMEDIA_AVAILABLE a; musicLibrary := v;
     playlist := playlist a; currentIndex := currentIndex a;
     isShuffled := isShuffled a; isRepeated := isRepeated a;
     likedSongs := likedSongs a; userPlaylists := userPlaylists a;
     player := player a; _prevVol := _prevVol a;
     _seekingActive := _seekingActive a; ui := ui a |}.

Definition set_playlist (v : list Song) (a : App) : App :=
  {| MULTIMEDIA_AVAILABLE := MULTIMEDIA_AVAILABLE a;
     musicLibrary := musicLibrary a; playlist := v;
     currentIndex := currentIndex a; isShuffled := isShuffled a;
     isRepeated := isRepeated a; likedSongs := likedSongs a;
     userPlaylists := userPlaylists a; player := player a;
     _prevVol := _prevVol a; _seekingActive := _seekingActive a;
     ui := ui a |}.

Definition set_currentIndex (v : Z) (a : App) : App :=
  {| MULTIMEDIA_AVAILABLE := MULTIMEDIA_AVAILABLE a;
     musicLibrary := musicLibrary a; playlist := playlist a;
     currentIndex := v; isShuffled := isShuffled a;
     isRepeated := isRepeated a; likedSongs := likedSongs a;
     userPlaylists := userPlaylists a; player := player a;
     _prevVol := _prevVol a; _seekingActive := _seekingActive a;
     ui := ui a |}.

Definition set_isShuffled (v : bool) (a : App) : App :=
  {| MULTIMEDIA_AVAILABLE := MULTIMEDIA_AVAILABLE a;
     musicLibrary := musicLibrary a; playlist := playlist a;
     currentIndex := currentIndex a; isShuffled := v;
     isRepeated := isRepeated a; likedSongs := likedSongs a;
     userPlaylists := userPlaylists a; player := player a;
     _prevVol := _prevVol a; _seekingActive := _seekingActive a;
     ui := ui a |}.

Definition set_isRepeated (v : bool) (a : App) : App :=
  {| MULTIMEDIA_AVAILABLE := MULTIMEDIA_AVAILABLE a;
     musicLibrary := musicLibrary a; playlist := playlist a;
     currentIndex := currentIndex a; isShuffled := isShuffled a;
     isRepeated := v; likedSongs := likedSongs a;
     userPlaylists := userPlaylists a; player := player a;
     _prevVol := _prevVol a; _seekingActive := _seekingActive a;
     ui := ui a |}.

Definition set_likedSongs (v : gset Z) (a : App) : App :=
  {| MULTIMEDIA_AVAILABLE := MULTIMEDIA_AVAILABLE a;
     musicLibrary := musicLibrary a; playlist := playlist a;
     currentIndex := currentIndex a; isShuffled := isShuffled a;
     isRepeated := isRepeated a; likedSongs := v;
     userPlaylists := userPlaylists a; player := player a;
     _prevVol := _prevVol a; _seekingActive := _seekingActive a;
     ui := ui a |}.

Definition set_userPlaylists (v : list Playlist) (a : App) : App :=
  {| MULTIMEDIA_AVAILABLE := MULTIMEDIA_AVAILABLE a;
     musicLibrary := musicLibrary a; playlist := playlist a;
     currentIndex := currentIndex a; isShuffled := isShuffled a;
     isRepeated := isRepeated a; likedSongs := likedSongs a;
     userPlaylists := v; player := player a; _prevVol := _prevVol a;
     _seekingActive := _seekingActive a; ui := ui a |}.

Definition set_player (v : option QMediaPlayer.t) (a : App) : App :=
  {| MULTIMEDIA_AVAILABLE := MULTIMEDIA_AVAILABLE a;
     musicLibrary := musicLibrary a; playlist := playlist a;
     currentIndex := currentIndex a; isShuffled := isShuffled a;
     isRepeated := isRepeated a; likedSongs := likedSongs a;
     userPlaylists := userPlaylists a; player := v; _prevVol := _prevVol a;
     _seekingActive := _seekingActive a; ui := ui a |}.

Definition set_prevVol (v : option Z) (a : App) : App :=
  {| MULTIMEDIA_AVAILABLE := MULTIMEDIA_AVAILABLE a;
     musicLibrary := musicLibrary a; playlist := playlist a;
     currentIndex := currentIndex a; isShuffled := isShuffled a;
     isRepeated := isRepeated a; likedSongs := likedSongs a;
     userPlaylists := userPlaylists a; player := player a; _prevVol := v;
     _seekingActive := _seekingActive a; ui := ui a |}.

Definition set_seekingActive (v : bool) (a : App) : App :=
  {| MULTIMEDIA_AVAILABLE := MULTIMEDIA_AVAILABLE a;
     musicLibrary := musicLibrary a; playlist := playlist a;
     currentIndex := currentIndex a; isShuffled := isShuffled a;
     isRepeated := isRepeated a; likedSongs := likedSongs a;
     userPlaylists := userPlaylists a; player := player a;
     _prevVol := _prevVol a; _seekingActive := v; ui := ui a |}.

Definition set_ui (v : Widgets) (a : App) : App :=
  {| MULTIMEDIA_AVAILABLE := MULTIMEDIA_AVAILABLE a;
     musicLibrary := musicLibrary a; playlist := playlist a;
     currentIndex := currentIndex a; isShuffled := isShuffled a;
     isRepeated := isRepeated a; likedSongs := likedSongs a;
     userPlaylists := userPlaylists a; player := player a;
     _prevVol := _prevVol a; _seekingActive := _seekingActive a; ui := v |}.

Definition with_ui (f : Widgets -> Widgets) (a : App) : App :=
  set_ui (f (ui a)) a.

(** ** The slots of [VibeBeatApp] *)

(** A slot either returns or raises [IndexError] from a list subscript;
    the state reached so far is kept in both cases. *)
Inductive outcome :=
  | Done (a : App)
  | IndexError (a : App).

Definition state_of (o : outcome) : App :=
  match o with Done a | IndexError a => a end.

Definition information (titl txt : string) (a : App) : App :=
  with_ui (fun w => set_messages (messages w ++ [(titl, txt)]) w) a.

(** *** Search *)

Definition _set_search_results (widgets : list Widget) (a : App) : App :=
  with_ui (set_searchResults widgets) a.

Definition _show_search_placeholder (a : App) : App :=
  _set_search_results [Label "Search for music"] a.

(** The condition of the list comprehension in [_on_search]. *)
Definition search_match (text : string) (s : Song) : bool :=
  PyStr.contains text (PyStr.lower (title s))
  || PyStr.contains text (PyStr.lower (artist s))
  || PyStr.contains text (PyStr.lower (album s)).

Definition _on_search (text : string) (a : App) : App :=
  let text := PyStr.lower (PyStr.strip text) in
  if negb (PyStr.truthy text) then
    _show_search_placeholder (with_ui (set_searchClearBtn false) a)
  else
    let a := with_ui (set_searchClearBtn true) a in
    let results :=
      List.filter (search_match text) (PyDict.values (musicLibrary a)) in
    match results with
    | [] => _set_search_results [Label ("No results for '" ++ text ++ "'")] a
    | _ => _set_search_results (map ListRow results) a
    end.

(** *** Liked songs page *)

Definition _populate_liked (a : App) : App :=
  let shown :=
    filter (fun i => is_Some (PyDict.get (musicLibrary a) i)) (likedSongs a) in
  if decide (shown = ∅)
  then with_ui (set_likedView NoLikedYet) a
  else with_ui (set_likedView (LikedRows shown)) a.

(** *** Player *)

Definition _play_song (song_id : Z) (a : App) : App :=
  match PyDict.get (musicLibrary a) song_id with
  | None => a
  | Some song =>
      let a := set_currentIndex 0 (set_playlist [song] a) in
      let a :=
        match player a with
        | Some p =>
            if MULTIMEDIA_AVAILABLE a then
              set_player
                (Some (QMediaPlayer.play (QMediaPlayer.setMedia p (audio song))))
                a
            else
              information "Audio unavailable"
                "Audio playback isn't available in this environment. The UI will still work."
                a
        | None =>
            information "Audio unavailable"
              "Audio playback isn't available in this environment. The UI will still work."
              a
        end in
      with_ui
        (fun w =>
           set_playBtn "⏸"
             (set_likeBtn
                (QToolButton.setChecked (likeBtn w)
                   (bool_decide (song_id ∈ likedSongs a)))
                (set_trackArtist (artist song)
                   (set_trackTitle (title song) w))))
        a
  end.

Definition _toggle_play (a : App) : App :=
  match player a with
  | None =>
      information "Audio unavailable" "Cannot play without multimedia backend." a
  | Some p =>
      if MULTIMEDIA_AVAILABLE a
         && bool_decide (QMediaPlayer.state p = QMediaPlayer.PlayingState)
      then set_player (Some (QMediaPlayer.pause p)) a
      else set_player (Some (QMediaPlayer.play p)) a
  end.

Definition _prev (a : App) : outcome :=
  if 0 <? currentIndex a then
    let a := set_currentIndex (currentIndex a - 1) a in
    match PyList.index (playlist a) (currentIndex a) with
    | None => IndexError a
    | Some s => Done (_play_song (id s) a)
    end
  else Done a.

Definition _next (a : App) : outcome :=
  if currentIndex a <? Z.of_nat (length (playlist a)) - 1 then
    let a := set_currentIndex (currentIndex a + 1) a in
    match PyList.index (playlist a) (currentIndex a) with
    | None => IndexError a
    | Some s => Done (_play_song (id s) a)
    end
  else Done a.

Definition _toggle_shuffle (a : App) : App :=
  set_isShuffled (negb (isShuffled a)) a.

Definition _toggle_repeat (a : App) : App :=
  set_isRepeated (negb (isRepeated a)) a.

Definition _toggle_like (a : App) : outcome :=
  if (currentIndex a <? 0) || bool_decide (playlist a = []) then Done a
  else
    match PyList.index (playlist a) (currentIndex a) with
    | None => IndexError a
    | Some s =>
        let sid := id s in
        let a :=
          if bool_decide (sid ∈ likedSongs a) then
            with_ui (fun w => set_likeBtn (QToolButton.setText (likeBtn w) "♡") w)
              (set_likedSongs (likedSongs a ∖ {[sid]}) a)
          else
            with_ui (fun w => set_likeBtn (QToolButton.setText (likeBtn w) "❤") w)
              (set_likedSongs (likedSongs a ∪ {[sid]}) a) in
        Done (_populate_liked a)
    end.

Definition _set_volume (value : Z) (a : App) : App :=
  let value := Z.max 0 (Z.min 100 value) in
  let a :=
    match player a with
    | Some p => set_player (Some (QMediaPlayer.setVolume p value)) a
    | None => a
    end in
  if value =? 0 then with_ui (set_muteBtn "🔇") a
  else if value <? 50 then with_ui (set_muteBtn "🔈") a
  else with_ui (set_muteBtn "🔊") a.

(** [self.volume.setValue(v)]: the slider bounds [v] to its range and,
    when the value changes, emits [valueChanged], which is connected to
    [_set_volume]. *)
Definition volume_setValue (v : Z) (a : App) : App :=
  let v := Z.max 0 (Z.min 100 v) in
  if v =? volume (ui a) then a
  else _set_volume v (with_ui (set_volume v) a).

(** [getattr(self, "_prevVol", 70)] *)
Definition getattr_prevVol (a : App) : Z := default 70 (_prevVol a).

Definition _toggle_mute (a : App) : App :=
  match player a with
  | None =>
      let vol := volume (ui a) in
      if vol =? 0 then volume_setValue (getattr_prevVol a) a
      else volume_setValue 0 (set_prevVol (Some vol) a)
  | Some p =>
      let vol := QMediaPlayer.volume p in
      if vol =? 0 then
        let a :=
          set_player (Some (QMediaPlayer.setVolume p (getattr_prevVol a))) a in
        volume_setValue (getattr_prevVol a) a
      else
        let a := set_prevVol (Some vol) a in
        let a := set_player (Some (QMediaPlayer.setVolume p 0)) a in
        volume_setValue 0 a
  end.

Definition _format_time (ms : Z) : string :=
  let secs := Z.max 0 (ms / 1000) in
  let m := secs / 60 in
  let s := secs mod 60 in
  pretty m ++ ":" ++ (if s <? 10 then "0" ++ pretty s else pretty s).

(** The progress slider itself is display only and is not modelled; the
    elapsed-time label is. *)
Definition _on_position_changed (pos : Z) (a : App) : App :=
  with_ui (set_currentTimeLbl (_format_time pos)) a.

Definition _on_duration_changed (dur : Z) (a : App) : App :=
  with_ui (set_totalTimeLbl (_format_time dur)) a.

Definition _on_play_state (st : QMediaPlayer.State) (a : App) : App :=
  let playing :=
    MULTIMEDIA_AVAILABLE a && bool_decide (st = QMediaPlayer.PlayingState) in
  with_ui (set_playBtn (if playing then "⏸" else "▶")) a.

Definition _on_media_status (status : QMediaPlayer.MediaStatus) (a : App) : App :=
  match player a with
  | None => a
  | Some p =>
      if MULTIMEDIA_AVAILABLE a
         && bool_decide (status = QMediaPlayer.EndOfMedia)
         && isRepeated a
      then
        set_player (Some (QMediaPlayer.play (QMediaPlayer.setPosition p 0))) a
      else a
  end.

Definition _seeking (active : bool) (a : App) : App :=
  set_seekingActive active a.

Definition _seek_position (value : Z) (a : App) : App :=
  match player a with
  | None => a
  | Some p =>
      let dur := QMediaPlayer.duration p in
      set_player
        (Some (QMediaPlayer.record p (QMediaPlayer.SetPositionScaled dur value)))
        a
  end.

(** *** Upload, playlists, navigation *)

(** [_upload_song].  The file dialog is external: [sel] is [None] when it
    is dismissed and otherwise carries the title derived from the file
    name and the URL string of the path; [this_year] is
    [QDate.currentDate().year()].  The rebuilt library grid is not part
    of the model. *)
Definition _upload_song (sel : option (string * string)) (this_year : Z)
    (a : App) : App :=
  match sel with
  | None => a
  | Some (titl, url) =>
      let new_id := PyDict.max_key (musicLibrary a) 1000 + 1 in
      let song :=
        {| id := new_id; title := titl; artist := "Local File";
           album := "Uploads"; image := ""; audio := url; duration := "";
           genre := ""; year := this_year; liked := false |} in
      let a := set_musicLibrary (PyDict.set (musicLibrary a) new_id song) a in
      _play_song new_id a
  end.

(** [_create_playlist].  [name] and [ok] are the answer of the input
    dialog and [now] is [QDateTime.currentMSecsSinceEpoch()]. *)
Definition _create_playlist (name : string) (ok : bool) (now : Z)
    (a : App) : App :=
  if negb ok || negb (PyStr.truthy (PyStr.strip name)) then a
  else
    let pl :=
      {| pl_id := now; pl_name := PyStr.strip name; pl_songs := [];
         pl_description := "" |} in
    let a := set_userPlaylists (userPlaylists a ++ [pl]) a in
    with_ui (fun w => set_playlistList (playlistList w ++ [PyStr.strip name]) w) a.

Inductive Page :=
  | pageHome | pageSearch | pageLibrary | pagePlaylists | pageLiked
  | pageSettings.

(** [_go_page]: of the pages it rebuilds, the search results and the
    liked list are modelled. *)
Definition _go_page (page : Page) (a : App) : App :=
  match page with
  | pageSearch => _show_search_placeholder a
  | pageLiked => _populate_liked a
  | _ => a
  end.

(** ** Start-up and events *)

Definition demo : list Song :=
  [ mkSong 1 "Night Vibes" "Chill Beats" "Ambient Collection"
      "https://i.scdn.co/image/ab67616d0000b2736dafe7cc3b0811b46c7f6617"
      "https://www.soundjay.com/misc/sounds/bell-ringing-05.wav"
      "3:45" "Ambient" 2024 false;
    mkSong 2 "Pop Energy" "Pop Mix" "Hits 2024"
      "https://i.scdn.co/image/ab67616d0000b27346eb72bcf13c7b82cf67d3f8"
      "https://www.soundjay.com/misc/sounds/bell-ringing-05.wav"
      "2:30" "Pop" 2024 false;
    mkSong 3 "Rock Classics" "Rock Legends" "Greatest Hits"
      "https://i.scdn.co/image/ab67616d0000b273d911c299fbb92c28e9a99217"
      "https://www.soundjay.com/misc/sounds/bell-ringing-05.wav"
      "4:12" "Rock" 2024 false;
    mkSong 4 "Lofi Chill" "Study Vibes" "Focus Music"
      "https://i.scdn.co/image/ab67616d0000b273f76b3f8afcd46e3f9ec99438"
      "https://www.soundjay.com/misc/sounds/bell-ringing-05.wav"
      "3:20" "Lofi" 2024 false ].

(** [_load_library]: [for s in demo: self.musicLibrary[s.id] = s] *)
Definition _load_library (a : App) : App :=
  set_musicLibrary
    (fold_left (fun d s => PyDict.set d (id s) s) demo (musicLibrary a)) a.

Definition initial_widgets : Widgets :=
  {| trackTitle := "Select a song"; trackArtist := "VibeBeat";
     likeBtn := QToolButton.new "♡"; playBtn := "▶"; muteBtn := "🔊";
     volume := 70; currentTimeLbl := "0:00"; totalTimeLbl := "0:00";
     searchClearBtn := true; searchResults := []; likedView := LikedNotBuilt;
     playlistList := []; messages := [] |}.

(** [VibeBeatApp.__init__], for either outcome of the guarded import. *)
Definition init (multimedia : bool) : App :=
  _load_library
    {| MULTIMEDIA_AVAILABLE := multimedia; musicLibrary := []; playlist := [];
       currentIndex := -1; isShuffled := false; isRepeated := false;
       likedSongs := ∅; userPlaylists := [];
       player :=
         if multimedia
         then Some (QMediaPlayer.setVolume QMediaPlayer.new 70)
         else None;
       _prevVol := None; _seekingActive := false; ui := initial_widgets |}.

(** The signals connected in [_wire_events] and by the song cards and
    rows, with the data each one carries. *)
Inductive Event :=
  | PlayClicked (song_id : Z)
  | PlayBtn | PrevBtn | NextBtn | ShuffleBtn | RepeatBtn | LikeBtn | MuteBtn
  | VolumeMoved (value : Z)
  | SliderPressed | SliderReleased
  | SliderMoved (value : Z)
  | SearchText (text : string)
  | Navigate (page : Page)
  | Upload (sel : option (string * string)) (this_year : Z)
  | CreatePlaylist (name : string) (ok : bool) (now : Z)
  | PositionChanged (pos : Z)
  | DurationChanged (dur : Z)
  | StateChanged (st : QMediaPlayer.State)
  | MediaStatusChanged (status : QMediaPlayer.MediaStatus).

(** The four backend notifications are connected only when a player
    exists; [StateChanged] and [DurationChanged] report a change the
    backend has already made. *)
Definition on_backend (f : QMediaPlayer.t -> App -> App) (a : App) : App :=
  match player a with
  | None => a
  | Some p => f p a
  end.

Definition handle (e : Event) (a : App) : outcome :=
  match e with
  | PlayClicked song_id => Done (_play_song song_id a)
  | PlayBtn => Done (_toggle_play a)
  | PrevBtn => _prev a
  | NextBtn => _next a
  | ShuffleBtn => Done (_toggle_shuffle a)
  | RepeatBtn => Done (_toggle_repeat a)
  | LikeBtn => _toggle_like a
  | MuteBtn => Done (_toggle_mute a)
  | VolumeMoved value => Done (volume_setValue value a)
  | SliderPressed => Done (_seeking true a)
  | SliderReleased => Done (_seeking false a)
  | SliderMoved value => Done (_seek_position value a)
  | SearchText text => Done (_on_search text a)
  | Navigate page => Done (_go_page page a)
  | Upload sel this_year => Done (_upload_song sel this_year a)
  | CreatePlaylist name ok now => Done (_create_playlist name ok now a)
  | PositionChanged pos =>
      Done (on_backend (fun _ => _on_position_changed pos) a)
  | DurationChanged dur =>
      Done (on_backend
              (fun p a =>
                 _on_duration_changed dur
                   (set_player (Some (QMediaPlayer.backend_duration p dur)) a))
              a)
  | StateChanged st =>
      Done (on_backend
              (fun p a =>
                 _on_play_state st
                   (set_player (Some (QMediaPlayer.backend_state p st)) a))
              a)
  | MediaStatusChanged status =>
      Done (on_backend (fun _ => _on_media_status status) a)
  end.

(** A run of the event loop; an exception raised by a slot ends it. *)
Fixpoint run (es : list Event) (a : App) : outcome :=
  match es with
  | [] => Done a
  | e :: es' =>
      match handle e a with
      | Done a' => run es' a'
      | IndexError a' => IndexError a'
      end
  end.

(** The states the program can be in. *)
Inductive reachable : App -> Prop :=
  | reachable_init multimedia : reachable (init multimedia)
  | reachable_step a e a' :
      reachable a -> handle e a = Done a' -> reachable a'.

(** ** Readings of the specification on the state *)

(** The queue is [playlist] with cursor [currentIndex]. *)
Definition hasPrevious (a : App) : bool := 0 <? currentIndex a.

Definition hasNext (a : App) : bool :=
  currentIndex a <? Z.of_nat (length (playlist a)) - 1.

(** The queue invariant of the data model. *)
Definition queue_inv (a : App) : Prop :=
  (playlist a ≠ [] ->
   0 <= currentIndex a < Z.of_nat (length (playlist a)))
  /\ (playlist a = [] <-> currentIndex a = -1).

(** The queue is empty with cursor -1, or holds one song at cursor 0. *)
Definition collapsed (a : App) : Prop :=
  (playlist a = [] /\ currentIndex a = -1)
  \/ (exists s, playlist a = [s] /\ currentIndex a = 0).

(** The volume in force: the backend's when there is one, the slider's
    otherwise (the value [_toggle_mute] reads). *)
Definition current_volume (a : App) : Z :=
  match player a with
  | Some p => QMediaPlayer.volume p
  | None => volume (ui a)
  end.

(** The calls the backend has received; none without a backend. *)
Definition issued (a : App) : list QMediaPlayer.Call :=
  match player a with
  | Some p => QMediaPlayer.calls p
  | None => []
  end.

(** The transport state of the specification.  The controller stores no
    play/pause flag of its own: with a backend the state is the
    backend's ([Idle] while no media was ever loaded), without one it is
    what the play button shows once a song has been selected. *)
Inductive Transport := Idle | LoadedPaused | LoadedPlaying.

Definition transport (a : App) : Transport :=
  match player a with
  | Some p =>
      match QMediaPlayer.media p with
      | None => Idle
      | Some _ =>
          if bool_decide (QMediaPlayer.state p = QMediaPlayer.PlayingState)
          then LoadedPlaying else LoadedPaused
      end
  | None =>
      match playlist a with
      | [] => Idle
      | _ => if bool_decide (playBtn (ui a) = "⏸")
             then LoadedPlaying else LoadedPaused
      end
  end.

(** A state with two songs queued and the cursor on the first.  No run
    of the program produces it (see [reachable_collapsed] below); it
    serves to evaluate [_next] and [_prev] away from the boundaries. *)
Definition two_queued : App :=
  set_currentIndex 0
    (set_playlist
       [ mkSong 1 "Night Vibes" "Chill Beats" "Ambient Collection"
           "https://i.scdn.co/image/ab67616d0000b2736dafe7cc3b0811b46c7f6617"
           "https://www.soundjay.com/misc/sounds/bell-ringing-05.wav"
           "3:45" "Ambient" 2024 false;
         mkSong 2 "Pop Energy" "Pop Mix" "Hits 2024"
           "https://i.scdn.co/image/ab67616d0000b27346eb72bcf13c7b82cf67d3f8"
           "https://www.soundjay.com/misc/sounds/bell-ringing-05.wav"
           "2:30" "Pop" 2024 false ]
       (init true)).

(** The boundary rule for skipping, read literally: a no-op exactly at
    cursor 0 (previous) or at cursor length-1 (next), and otherwise a
    move of the cursor by one. *)
Definition skip_prev_as_stated (a : App) : Prop :=
  if decide (currentIndex a = 0) then _prev a = Done a
  else exists a', _prev a = Done a' /\ currentIndex a' = currentIndex a - 1.

Definition skip_next_as_stated (a : App) : Prop :=
  if decide (currentIndex a = Z.of_nat (length (playlist a)) - 1)
  then _next a = Done a
  else exists a', _next a = Done a' /\ currentIndex a' = currentIndex a + 1.

(** The state after selecting song 1 and liking it. *)
Definition liked_one : App :=
  state_of (run [PlayClicked 1; LikeBtn] (init true)).

(** [field] contains [text] as a substring up to letter case. *)
Definition ci_contains (text field : string) : Prop :=
  exists pre mid suf,
    field = (pre ++ mid ++ suf)%string /\ PyStr.lower mid = PyStr.lower text.

(** Title, artist or album contains [text] (any one of them). *)
Definition song_matches (text : string) (s : Song) : Prop :=
  ci_contains text (title s) \/ ci_contains text (artist s)
  \/ ci_contains text (album s).

(** [selected P l r]: [r] lists, in the order of [l], exactly the
    elements of [l] that satisfy [P]. *)
Inductive selected {A} (P : A -> Prop) : list A -> list A -> Prop :=
  | selected_nil : selected P [] []
  | selected_keep x l r : P x -> selected P l r -> selected P (x :: l) (x :: r)
  | selected_skip x l r : ~ P x -> selected P l r -> selected P (x :: l) r.

(** What the search page shows for the songs [rs] found for query [q]. *)
Definition search_view (q : string) (rs : list Song) : list Widget :=
  match rs with
  | [] => [Label ("No results for '" ++ q ++ "'")]
  | _ => map ListRow rs
  end.

(** The search rule read literally: a query that is not blank is matched
    as typed against the three fields. *)
Definition search_as_stated (text : string) (a : App) : Prop :=
  PyStr.all_space text = false ->
  exists rs,
    selected (song_matches text) (PyDict.values (musicLibrary a)) rs
    /\ searchResults (ui (_on_search text a))
       = search_view (PyStr.lower (PyStr.strip text)) rs.

(** The text [_set_volume] gives the mute button for a volume. *)
Definition mute_icon (v : Z) : string :=
  if v =? 0 then "🔇" else if v <? 50 then "🔈" else "🔊".

(** Slider, backend and mute button agree on the volume, and a stored
    [_prevVol] is a volume one can return to. *)
Definition volume_ok (a : App) : Prop :=
  (is_Some (player a) <-> MULTIMEDIA_AVAILABLE a = true)
  /\ (forall p, player a = Some p -> QMediaPlayer.volume p = volume (ui a))
  /\ 0 <= volume (ui a) <= 100
  /\ muteBtn (ui a) = mute_icon (volume (ui a))
  /\ (forall v, _prevVol a = Some v -> 1 <= v <= 100).

(** What the volume invariant reads. *)
Definition volume_view (a : App) :
    bool * option Z * Z * string * option Z :=
  (MULTIMEDIA_AVAILABLE a, QMediaPlayer.volume <$> player a, volume (ui a),
   muteBtn (ui a), _prevVol a).

(** The library files every song under its own id, without duplicate
    keys; queued songs and liked ids belong to the library. *)
Definition library_ok (a : App) : Prop :=
  NoDup (PyDict.keys (musicLibrary a))
  /\ (forall k s, PyDict.get (musicLibrary a) k = Some s -> id s = k)
  /\ (forall s, s ∈ playlist a ->
                PyDict.get (musicLibrary a) (id s) = Some s)
  /\ (forall k, k ∈ likedSongs a -> is_Some (PyDict.get (musicLibrary a) k)).

(** The sidebar list mirrors [userPlaylists]; every stored name is
    stripped and not empty, and every playlist is empty. *)
Definition playlists_ok (a : App) : Prop :=
  playlistList (ui a) = map pl_name (userPlaylists a)
  /\ Forall (fun p => pl_songs p = []
                      /\ pl_name p <> ""
                      /\ PyStr.strip (pl_name p) = pl_name p)
       (userPlaylists a).

Definition outcome_map (f : App -> App) (o : outcome) : outcome :=
  match o with
  | Done a => Done (f a)
  | IndexError a => IndexError (f a)
  end.

(** ** Page builders

    The home page and the card grids are rebuilt from the library and
    hold no state of their own; they are modelled by what they show. *)

(** The placement loop of [_fill_cards] (also used, with other column
    counts, by [_populate_library] and [_populate_playlists]): each
    widget is put at the current row and column, then the column
    advances and wraps at [cols]. *)
Fixpoint grid_loop {A} (cols : Z) (items : list A) (r c : Z)
    : list (Z * Z * A) :=
  match items with
  | [] => []
  | w :: ws =>
      (r, c, w) ::
      (if cols <=? c + 1 then grid_loop cols ws (r + 1) 0
       else grid_loop cols ws r (c + 1))
  end.

Definition _fill_cards (songs : list Song) : list (Z * Z * Song) :=
  grid_loop 4 songs 0 0.

(** [[self.musicLibrary[i] for i in ids if i in self.musicLibrary]] *)
Definition songs_of (a : App) (ids : list Z) : list Song :=
  omap (PyDict.get (musicLibrary a)) ids.

(** [_populate_home]: the three grids (recent, made for you, trending). *)
Definition _populate_home (a : App)
    : list (Z * Z * Song) * list (Z * Z * Song) * list (Z * Z * Song) :=
  let ids := take 6 (PyDict.keys (musicLibrary a)) in
  let made := [1; 2; 3; 4] in
  let trending := [2; 3; 1; 4] in
  (_fill_cards (songs_of a ids), _fill_cards (songs_of a made),
   _fill_cards (songs_of a trending)).

(** What the playlists page shows: the "No custom playlists yet" label
    or one card per playlist with its name, its description and its
    song count. *)
Inductive PlaylistWidget :=
  | PlaylistsLabel (text : string)
  | PlaylistCard (name description count : string).

(** [_populate_playlists]: the label at cell (0, 0) when there is no
    playlist, otherwise the cards three to a row. *)
Definition _populate_playlists (a : App) : list (Z * Z * PlaylistWidget) :=
  match userPlaylists a with
  | [] => [(0, 0, PlaylistsLabel "No custom playlists yet")]
  | _ =>
      grid_loop 3
        (map (fun p =>
                PlaylistCard (pl_name p) (pl_description p)
                  (pretty (Z.of_nat (length (pl_songs p))) ++ " songs"))
           (userPlaylists a))
        0 0
  end.

(** Python's [str.isascii()]: every character is below code point 128
    (the empty string included).  This is the range on which [PyStr]
    agrees with Python's [strip()], [lower()] and [in]; statements about
    an arbitrary text are made for text in this range. *)
Definition isascii_char (c : ascii) : bool :=
  (Z.of_nat (nat_of_ascii c) <? 128)%Z.

Fixpoint isascii (s : string) : bool :=
  match s with
  | EmptyString => true
  | String c s' => isascii_char c && isascii s'
  end.

(** The three fields [_on_search] looks at are ASCII, for one song and
    for every song of the library. *)
Definition song_isascii (s : Song) : bool :=
  isascii (title s) && isascii (artist s) && isascii (album s).

Definition library_isascii (a : App) : bool :=
  forallb song_isascii (PyDict.values (musicLibrary a)).

(** ** Basic facts about the slots *)

Lemma play_song_found a song_id song :
  PyDict.get (musicLibrary a) song_id = Some song ->
  playlist (_play_song song_id a) = [song]
  /\ currentIndex (_play_song song_id a) = 0
  /\ likedSongs (_play_song song_id a) = likedSongs a
  /\ musicLibrary (_play_song song_id a) = musicLibrary a.
Proof.
  intros H. unfold _play_song. rewrite H. cbn.
  destruct (player a); [destruct (MULTIMEDIA_AVAILABLE a)|]; cbn; auto.
Qed.

Lemma play_song_missing a song_id :
  PyDict.get (musicLibrary a) song_id = None -> _play_song song_id a = a.
Proof. intros H. unfold _play_song. now rewrite H. Qed.

Lemma play_song_queue a song_id :
  (playlist (_play_song song_id a) = playlist a
   /\ currentIndex (_play_song song_id a) = currentIndex a)
  \/ (exists s, playlist (_play_song song_id a) = [s]
                /\ currentIndex (_play_song song_id a) = 0).
Proof.
  destruct (PyDict.get (musicLibrary a) song_id) as [song|] eqn:H.
  - right. exists song. destruct (play_song_found a song_id song H) as (?&?&_).
    auto.
  - left. rewrite (play_song_missing a song_id H). auto.
Qed.

Lemma index_in_range {A} (l : list A) (i : Z) :
  0 <= i < Z.of_nat (length l) -> exists x, PyList.index l i = Some x.
Proof.
  intros Hi. unfold PyList.index.
  assert ((0 <=? i) && (i <? Z.of_nat (length l)) = true) as ->
    by (apply andb_true_iff; split; [apply Z.leb_le | apply Z.ltb_lt]; lia).
  apply lookup_lt_is_Some_2. lia.
Qed.

Lemma index_nil {A} (i : Z) : PyList.index (@nil A) i = None.
Proof.
  unfold PyList.index. repeat case_match; auto using lookup_nil.
Qed.

Lemma dict_get_set_eq {V} (d : list (Z * V)) k v :
  PyDict.get (PyDict.set d k v) k = Some v.
Proof.
  induction d as [|[k' v'] d IH]; cbn.
  - now rewrite Z.eqb_refl.
  - destruct (Z.eqb k k') eqn:E; cbn; rewrite ?Z.eqb_refl, ?E; auto.
Qed.

(** Slots that leave the queue alone. *)
Lemma queue_untouched e a :
  match e with
  | PlayClicked _ | PrevBtn | NextBtn | Upload _ _ => True
  | LikeBtn =>
      playlist (state_of (handle e a)) = playlist a
      /\ currentIndex (state_of (handle e a)) = currentIndex a
  | _ =>
      exists a', handle e a = Done a'
                 /\ playlist a' = playlist a
                 /\ currentIndex a' = currentIndex a
  end.
Proof.
  destruct e; try exact I; cbn [handle state_of];
    try (eexists; split; [reflexivity|]).
  - unfold _toggle_play. destruct (player a); [case_match|]; cbn; auto.
  - cbn; auto.
  - cbn; auto.
  - unfold _toggle_like.
    destruct ((currentIndex a <? 0) || bool_decide (playlist a = [])); [auto|].
    destruct (PyList.index _ _); [|auto].
    unfold _populate_liked. repeat case_match; cbn; auto.
  - unfold _toggle_mute, volume_setValue, _set_volume.
    repeat case_match; cbn; auto.
  - unfold volume_setValue, _set_volume. repeat case_match; cbn; auto.
  - cbn; auto.
  - cbn; auto.
  - unfold _seek_position. case_match; cbn; auto.
  - unfold _on_search. repeat case_match; cbn; auto.
  - unfold _go_page, _populate_liked. repeat case_match; cbn; auto.
  - unfold _create_playlist. case_match; cbn; auto.
  - unfold on_backend. case_match; cbn; auto.
  - unfold on_backend. case_match; cbn; auto.
  - unfold on_backend. case_match; cbn; auto.
  - unfold on_backend, _on_media_status. repeat case_match; cbn; auto.
Qed.

Lemma queue_inv_same a a' :
  playlist a' = playlist a -> currentIndex a' = currentIndex a ->
  queue_inv a -> queue_inv a'.
Proof. unfold queue_inv. intros -> ->. auto. Qed.

Lemma collapsed_same a a' :
  playlist a' = playlist a -> currentIndex a' = currentIndex a ->
  collapsed a -> collapsed a'.
Proof. unfold collapsed. intros -> ->. auto. Qed.

Lemma collapsed_queue_inv a : collapsed a -> queue_inv a.
Proof.
  unfold collapsed, queue_inv.
  intros [[-> ->]|(s & -> & ->)]; cbn; split; try split; try done; lia.
Qed.

Lemma play_song_collapsed a song_id :
  collapsed a -> collapsed (_play_song song_id a).
Proof.
  intros H. destruct (play_song_queue a song_id) as [[Hp Hc]|Hs].
  - eapply collapsed_same; eauto.
  - now right.
Qed.

Lemma play_song_queue_inv a song_id :
  queue_inv a -> queue_inv (_play_song song_id a).
Proof.
  intros H. destruct (play_song_queue a song_id) as [[Hp Hc]|Hs].
  - eapply queue_inv_same; eauto.
  - apply collapsed_queue_inv. now right.
Qed.

Lemma upload_queue a sel this_year :
  (_upload_song sel this_year a = a)
  \/ (exists s, playlist (_upload_song sel this_year a) = [s]
                /\ currentIndex (_upload_song sel this_year a) = 0).
Proof.
  destruct sel as [[titl url]|]; [right|now left].
  unfold _upload_song.
  set (new_id := PyDict.max_key (musicLibrary a) 1000 + 1).
  set (song := mkSong new_id _ _ _ _ _ _ _ _ _).
  set (a1 := set_musicLibrary _ a).
  assert (PyDict.get (musicLibrary a1) new_id = Some song) as Hget
    by apply dict_get_set_eq.
  destruct (play_song_found a1 new_id song Hget) as (? & ? & _). eauto.
Qed.

Lemma prev_collapsed a : collapsed a -> _prev a = Done a.
Proof.
  unfold _prev. intros [[_ Hc]|(s & _ & Hc)]; rewrite Hc; reflexivity.
Qed.

Lemma next_collapsed a : collapsed a -> _next a = Done a.
Proof.
  unfold _next. intros [[Hp Hc]|(s & Hp & Hc)]; rewrite Hp, Hc; reflexivity.
Qed.

Lemma like_total a :
  queue_inv a -> exists a', _toggle_like a = Done a'.
Proof.
  intros [Hr He]. unfold _toggle_like.
  destruct ((currentIndex a <? 0) || bool_decide (playlist a = [])) eqn:E;
    [eauto|].
  apply orb_false_iff in E as [_ E]. apply bool_decide_eq_false in E.
  destruct (index_in_range (playlist a) (currentIndex a) (Hr E)) as [s ->].
  eauto.
Qed.

Lemma handle_collapsed a e :
  collapsed a -> exists a', handle e a = Done a' /\ collapsed a'.
Proof.
  intros H. pose proof (queue_untouched e a) as Hq.
  destruct e;
    try (destruct Hq as (a' & -> & Hp & Hc); exists a'; split; [done|];
         eapply collapsed_same; eauto; fail).
  - eexists; split; [reflexivity|]. now apply play_song_collapsed.
  - exists a. split; [now apply prev_collapsed|done].
  - exists a. split; [now apply next_collapsed|done].
  - destruct (like_total a (collapsed_queue_inv a H)) as [a' Ha'].
    cbn [handle] in *. rewrite Ha' in *. cbn in Hq. destruct Hq.
    exists a'. split; [done|]. eapply collapsed_same; eauto.
  - eexists; split; [reflexivity|].
    destruct (upload_queue a sel this_year) as [->|Hs]; [done|now right].
Qed.

Lemma prev_queue_inv a :
  queue_inv a -> exists a', _prev a = Done a' /\ queue_inv a'.
Proof.
  intros [Hr He]. unfold _prev.
  destruct (0 <? currentIndex a) eqn:E; [|exists a; split; [done|now split]].
  apply Z.ltb_lt in E.
  assert (playlist a ≠ []) as Hne by (intros Hn; apply He in Hn; lia).
  specialize (Hr Hne). cbn [playlist currentIndex set_currentIndex].
  destruct (index_in_range (playlist a) (currentIndex a - 1)) as [s ->];
    [lia|].
  eexists; split; [reflexivity|]. apply play_song_queue_inv.
  split; cbn; [intros _; lia|]. split; [done|lia].
Qed.

Lemma next_queue_inv a :
  queue_inv a -> exists a', _next a = Done a' /\ queue_inv a'.
Proof.
  intros [Hr He]. unfold _next.
  destruct (currentIndex a <? Z.of_nat (length (playlist a)) - 1) eqn:E;
    [|exists a; split; [done|now split]].
  apply Z.ltb_lt in E.
  assert (playlist a ≠ []) as Hne.
  { intros Hn. pose proof Hn as Hn'. apply He in Hn. rewrite Hn' in E.
    cbn in E. lia. }
  specialize (Hr Hne). cbn [playlist currentIndex set_currentIndex].
  destruct (index_in_range (playlist a) (currentIndex a + 1)) as [s ->];
    [lia|].
  eexists; split; [reflexivity|]. apply play_song_queue_inv.
  split; cbn; [intros _; lia|]. split; [done|lia].
Qed.

Lemma handle_queue_inv a e :
  queue_inv a -> exists a', handle e a = Done a' /\ queue_inv a'.
Proof.
  intros H. pose proof (queue_untouched e a) as Hq.
  destruct e;
    try (destruct Hq as (a' & -> & Hp & Hc); exists a'; split; [done|];
         eapply queue_inv_same; eauto; fail).
  - eexists; split; [reflexivity|]. now apply play_song_queue_inv.
  - now apply prev_queue_inv.
  - now apply next_queue_inv.
  - destruct (like_total a H) as [a' Ha'].
    cbn [handle] in *. rewrite Ha' in *. cbn in Hq. destruct Hq.
    exists a'. split; [done|]. eapply queue_inv_same; eauto.
  - eexists; split; [reflexivity|]. cbn [handle].
    destruct (upload_queue a sel this_year) as [->|Hs]; [done|].
    apply collapsed_queue_inv. now right.
Qed.

Lemma init_collapsed multimedia : collapsed (init multimedia).
Proof. left. split; reflexivity. Qed.

Lemma run_from a es (P : App -> Prop) :
  (forall a e, P a -> exists a', handle e a = Done a' /\ P a') ->
  P a -> exists a', run es a = Done a' /\ P a'.
Proof.
  intros Hstep. revert a. induction es as [|e es IH]; intros a Ha; cbn.
  - eauto.
  - destruct (Hstep a e Ha) as (a1 & -> & Ha1). now apply IH.
Qed.

Lemma reachable_collapsed a : reachable a -> collapsed a.
Proof.
  induction 1 as [m|a e a' _ IH Hh].
  - apply init_collapsed.
  - destruct (handle_collapsed a e IH) as (a1 & Ha1 & Hc). congruence.
Qed.

(** ** The queue *)

(** C2: the queue invariant (a non-empty queue has its cursor in range,
    and the queue is empty exactly when the cursor is -1) holds in the
    initial state, is preserved by every slot, none of which raises from
    a state that satisfies it, and so holds after any sequence of
    events. *)
Theorem queue_invariant_preserved :
  (forall multimedia, queue_inv (init multimedia))
  /\ (forall a e,
        queue_inv a -> exists a', handle e a = Done a' /\ queue_inv a')
  /\ (forall multimedia es,
        exists a', run es (init multimedia) = Done a' /\ queue_inv a').
Proof.
  split; [|split].
  - intros m. apply collapsed_queue_inv, init_collapsed.
  - apply handle_queue_inv.
  - intros m es. apply run_from; [apply handle_queue_inv|].
    apply collapsed_queue_inv, init_collapsed.
Qed.

Lemma queue_invariant_preserved_witness :
  queue_inv two_queued
  /\ exists a', handle NextBtn two_queued = Done a' /\ queue_inv a'.
Proof.
  assert (queue_inv two_queued) as H.
  { split; cbn; [intros _; lia|]. split; [done|lia]. }
  split; [exact H|].
  exact (proj1 (proj2 queue_invariant_preserved) two_queued NextBtn H).
Defined.

(** C10: in every reachable state the queue holds at most one song
    (empty with cursor -1, or one song at cursor 0), so [hasPrevious]
    and [hasNext] are false and [_prev] and [_next] do nothing. *)
Theorem reachable_queue_single a :
  reachable a ->
  (length (playlist a) <= 1)%nat
  /\ collapsed a
  /\ hasPrevious a = false
  /\ hasNext a = false
  /\ _prev a = Done a
  /\ _next a = Done a.
Proof.
  intros Hr. pose proof (reachable_collapsed a Hr) as Hc.
  split; [|split; [exact Hc|]].
  - destruct Hc as [[-> _]|(s & -> & _)]; cbn; lia.
  - unfold hasPrevious, hasNext.
    split; [|split; [|split; [now apply prev_collapsed
                             |now apply next_collapsed]]];
      destruct Hc as [[Hp Hi]|(s & Hp & Hi)]; rewrite ?Hp, Hi; reflexivity.
Qed.

Lemma reachable_queue_single_witness :
  reachable (_play_song 1 (init true))
  /\ _next (_play_song 1 (init true)) = Done (_play_song 1 (init true)).
Proof.
  assert (reachable (_play_song 1 (init true))) as H.
  { apply (reachable_step (init true) (PlayClicked 1));
      [apply reachable_init | reflexivity]. }
  split; [exact H|].
  exact (proj2 (proj2 (proj2 (proj2 (proj2
           (reachable_queue_single _ H)))))).
Defined.

(** C5: [_play_song] on an id that is not a key of the library returns
    with the state untouched: queue, cursor, liked set, transport state
    and the calls received by the backend are as before, and the slot
    does not raise. *)
Theorem play_song_unknown_id a song_id :
  PyDict.get (musicLibrary a) song_id = None ->
  _play_song song_id a = a
  /\ handle (PlayClicked song_id) a = Done a
  /\ playlist (_play_song song_id a) = playlist a
  /\ currentIndex (_play_song song_id a) = currentIndex a
  /\ likedSongs (_play_song song_id a) = likedSongs a
  /\ transport (_play_song song_id a) = transport a
  /\ issued (_play_song song_id a) = issued a
  /\ messages (ui (_play_song song_id a)) = messages (ui a).
Proof.
  intros H. cbn [handle]. rewrite (play_song_missing a song_id H).
  repeat split.
Qed.

Lemma play_song_unknown_id_witness :
  PyDict.get (musicLibrary (init true)) 99 = None
  /\ _play_song 99 (init true) = init true.
Proof.
  split; [reflexivity|].
  exact (proj1 (play_song_unknown_id (init true) 99 eq_refl)).
Defined.

(** C6, as stated, fails: with the empty queue (cursor -1, not 0)
    [_prev] is a no-op instead of moving the cursor, and with two songs
    queued [_next] from cursor 0 ends with cursor 0, not 1, because
    [_play_song] collapses the queue. *)
Lemma skip_as_stated_counterexample :
  ~ skip_prev_as_stated (init true) /\ ~ skip_next_as_stated two_queued.
Proof.
  split.
  - unfold skip_prev_as_stated. cbn. intros (a' & Ha & Hc).
    inversion Ha; subst. cbn in Hc. lia.
  - unfold skip_next_as_stated. cbn. intros (a' & Ha & Hc).
    inversion Ha; subst. cbn in Hc. lia.
Qed.

(** C6 (amended): [_next] with cursor >= length-1 and [_prev] with
    cursor <= 0 are no-ops that leave the whole state as it is; in the
    other cases, from a state satisfying the queue invariant, the slot
    steps the cursor by one and calls [_play_song] on the song found
    there, after which (that song's id being in the library) the queue
    is that single song and the cursor is 0. *)
Theorem skip_boundaries_and_collapse a :
  (Z.of_nat (length (playlist a)) - 1 <= currentIndex a -> _next a = Done a)
  /\ (currentIndex a <= 0 -> _prev a = Done a)
  /\ (queue_inv a ->
      currentIndex a < Z.of_nat (length (playlist a)) - 1 ->
      exists s,
        playlist a !! Z.to_nat (currentIndex a + 1) = Some s
        /\ _next a =
             Done (_play_song (id s) (set_currentIndex (currentIndex a + 1) a))
        /\ forall song,
             PyDict.get (musicLibrary a) (id s) = Some song ->
             playlist (state_of (_next a)) = [song]
             /\ currentIndex (state_of (_next a)) = 0)
  /\ (queue_inv a ->
      0 < currentIndex a ->
      exists s,
        playlist a !! Z.to_nat (currentIndex a - 1) = Some s
        /\ _prev a =
             Done (_play_song (id s) (set_currentIndex (currentIndex a - 1) a))
        /\ forall song,
             PyDict.get (musicLibrary a) (id s) = Some song ->
             playlist (state_of (_prev a)) = [song]
             /\ currentIndex (state_of (_prev a)) = 0).
Proof.
  split; [|split; [|split]].
  - intros H. unfold _next.
    destruct (currentIndex a <? _) eqn:E; [apply Z.ltb_lt in E; lia|done].
  - intros H. unfold _prev.
    destruct (0 <? currentIndex a) eqn:E; [apply Z.ltb_lt in E; lia|done].
  - intros [Hr He] Hlt.
    assert (playlist a ≠ []) as Hne.
    { intros Hn. pose proof Hn as Hn'. apply He in Hn. rewrite Hn' in Hlt.
      cbn in Hlt. lia. }
    specialize (Hr Hne).
    assert (exists s, playlist a !! Z.to_nat (currentIndex a + 1) = Some s)
      as [s Hs] by (apply lookup_lt_is_Some_2; lia).
    exists s. split; [exact Hs|].
    assert (_next a =
            Done (_play_song (id s) (set_currentIndex (currentIndex a + 1) a)))
      as Hn.
    { unfold _next. apply Z.ltb_lt in Hlt. rewrite Hlt.
      cbn [playlist currentIndex set_currentIndex]. unfold PyList.index.
      assert ((0 <=? currentIndex a + 1)
              && (currentIndex a + 1 <? Z.of_nat (length (playlist a))) = true)
        as -> by (apply Z.ltb_lt in Hlt; apply andb_true_iff;
                  split; [apply Z.leb_le|apply Z.ltb_lt]; lia).
      now rewrite Hs. }
    split; [exact Hn|]. intros song Hg. rewrite Hn. cbn [state_of].
    destruct (play_song_found (set_currentIndex (currentIndex a + 1) a)
                (id s) song Hg) as (? & ? & _). auto.
  - intros [Hr He] Hlt.
    assert (playlist a ≠ []) as Hne by (intros Hn; apply He in Hn; lia).
    specialize (Hr Hne).
    assert (exists s, playlist a !! Z.to_nat (currentIndex a - 1) = Some s)
      as [s Hs] by (apply lookup_lt_is_Some_2; lia).
    exists s. split; [exact Hs|].
    assert (_prev a =
            Done (_play_song (id s) (set_currentIndex (currentIndex a - 1) a)))
      as Hn.
    { unfold _prev. apply Z.ltb_lt in Hlt. rewrite Hlt.
      cbn [playlist currentIndex set_currentIndex]. unfold PyList.index.
      assert ((0 <=? currentIndex a - 1)
              && (currentIndex a - 1 <? Z.of_nat (length (playlist a))) = true)
        as -> by (apply Z.ltb_lt in Hlt; apply andb_true_iff;
                  split; [apply Z.leb_le|apply Z.ltb_lt]; lia).
      now rewrite Hs. }
    split; [exact Hn|]. intros song Hg. rewrite Hn. cbn [state_of].
    destruct (play_song_found (set_currentIndex (currentIndex a - 1) a)
                (id s) song Hg) as (? & ? & _). auto.
Qed.

Lemma skip_boundaries_and_collapse_witness :
  queue_inv two_queued
  /\ currentIndex two_queued < Z.of_nat (length (playlist two_queued)) - 1
  /\ exists s,
       playlist two_queued !! Z.to_nat (currentIndex two_queued + 1) = Some s
       /\ _next two_queued =
            Done (_play_song (id s)
                    (set_currentIndex (currentIndex two_queued + 1) two_queued))
       /\ forall song,
            PyDict.get (musicLibrary two_queued) (id s) = Some song ->
            playlist (state_of (_next two_queued)) = [song]
            /\ currentIndex (state_of (_next two_queued)) = 0.
Proof.
  assert (queue_inv two_queued) as H.
  { split; cbn; [intros _; lia|]. split; [done|lia]. }
  assert (currentIndex two_queued
          < Z.of_nat (length (playlist two_queued)) - 1) as Hlt
    by (cbn; lia).
  split; [exact H|]. split; [exact Hlt|].
  exact (proj1 (proj2 (proj2 (skip_boundaries_and_collapse two_queued)))
           H Hlt).
Defined.

(** ** Volume and mute *)

Ltac zbool :=
  repeat match goal with
    | H : (_ =? _) = true |- _ => apply Z.eqb_eq in H
    | H : (_ =? _) = false |- _ => apply Z.eqb_neq in H
    | H : (_ <? _) = true |- _ => apply Z.ltb_lt in H
    | H : (_ <? _) = false |- _ => apply Z.ltb_ge in H
    end.

Lemma set_volume_current value a :
  current_volume (_set_volume value a)
  = match player a with
    | Some _ => Z.max 0 (Z.min 100 value)
    | None => volume (ui a)
    end
  /\ _prevVol (_set_volume value a) = _prevVol a.
Proof.
  unfold _set_volume, current_volume. set (c := Z.max 0 (Z.min 100 value)).
  assert (Z.max 0 (Z.min 100 c) = c) as Hc by lia.
  destruct (player a) as [p|] eqn:E;
    destruct (c =? 0); [|destruct (c <? 50)| |destruct (c <? 50)];
    simpl; rewrite ?E; simpl; auto.
Qed.

(** After [volume.setValue(v)] the volume in force is [v] bounded to
    0..100, provided the backend (if any) already holds that value. *)
Lemma setValue_current v a :
  (forall p, player a = Some p ->
             QMediaPlayer.volume p = Z.max 0 (Z.min 100 v)) ->
  current_volume (volume_setValue v a) = Z.max 0 (Z.min 100 v)
  /\ _prevVol (volume_setValue v a) = _prevVol a.
Proof.
  intros Hp. unfold volume_setValue. set (c := Z.max 0 (Z.min 100 v)) in *.
  assert (Z.max 0 (Z.min 100 c) = c) as Hc by lia.
  destruct (c =? volume (ui a)) eqn:E.
  - apply Z.eqb_eq in E. split; [|done]. unfold current_volume.
    destruct (player a) as [p|] eqn:Ep; [now apply Hp|done].
  - destruct (set_volume_current c (with_ui (set_volume c) a)) as [H1 H2].
    rewrite H1, H2. simpl. destruct (player a); auto.
Qed.

Lemma toggle_mute_once a :
  (current_volume a <> 0 ->
   current_volume (_toggle_mute a) = 0
   /\ _prevVol (_toggle_mute a) = Some (current_volume a))
  /\ (current_volume a = 0 ->
      current_volume (_toggle_mute a)
      = Z.max 0 (Z.min 100 (getattr_prevVol a))
      /\ _prevVol (_toggle_mute a) = _prevVol a).
Proof.
  unfold _toggle_mute.
  destruct (player a) as [p|] eqn:Ep.
  - assert (current_volume a = QMediaPlayer.volume p) as ->
      by (unfold current_volume; now rewrite Ep).
    split; intros Hv.
    + apply Z.eqb_neq in Hv. rewrite Hv.
      match goal with |- context [volume_setValue 0 ?b] =>
        destruct (setValue_current 0 b) as [H1 H2] end.
      { simpl. intros q [= <-]. reflexivity. }
      rewrite H1, H2. split; reflexivity.
    + rewrite Hv. simpl.
      match goal with |- context [volume_setValue ?x ?b] =>
        destruct (setValue_current x b) as [H1 H2] end.
      { simpl. intros q [= <-]. reflexivity. }
      rewrite H1, H2. split; reflexivity.
  - assert (current_volume a = volume (ui a)) as ->
      by (unfold current_volume; now rewrite Ep).
    split; intros Hv.
    + apply Z.eqb_neq in Hv. rewrite Hv.
      match goal with |- context [volume_setValue 0 ?b] =>
        destruct (setValue_current 0 b) as [H1 H2] end.
      { simpl. rewrite Ep. discriminate. }
      rewrite H1, H2. split; reflexivity.
    + rewrite Hv. simpl.
      destruct (setValue_current (getattr_prevVol a) a) as [H1 H2].
      { rewrite Ep. discriminate. }
      rewrite H1, H2. split; reflexivity.
Qed.

(** C3: for a starting volume [v] in 0..100, two calls of
    [_toggle_mute] bring the volume back to [v].  When [v] is not zero
    the first call stores [v] in [_prevVol] and sets the volume to 0;
    when [v] is zero the first call restores [_prevVol] (70 when it was
    never assigned) and the second sets the volume to 0 again. *)
Theorem toggle_mute_twice a v :
  0 <= v <= 100 ->
  current_volume a = v ->
  current_volume (_toggle_mute (_toggle_mute a)) = v
  /\ (v <> 0 ->
      _prevVol (_toggle_mute a) = Some v
      /\ current_volume (_toggle_mute a) = 0)
  /\ (v = 0 ->
      current_volume (_toggle_mute a)
      = Z.max 0 (Z.min 100 (getattr_prevVol a))
      /\ (_prevVol a = None -> current_volume (_toggle_mute a) = 70)
      /\ (forall m, _prevVol a = Some m -> 0 <= m <= 100 ->
                    current_volume (_toggle_mute a) = m)).
Proof.
  intros Hv Hc.
  destruct (toggle_mute_once a) as [Hnz Hz]. rewrite Hc in Hnz, Hz.
  destruct (toggle_mute_once (_toggle_mute a)) as [Hnz' Hz'].
  split; [|split].
  - destruct (Z.eq_dec v 0) as [->|Hne].
    + destruct (Hz eq_refl) as [H1 H2].
      destruct (Z.eq_dec (current_volume (_toggle_mute a)) 0) as [E|E].
      * destruct (Hz' E) as [H3 _]. rewrite H3.
        unfold getattr_prevVol. rewrite H2.
        fold (getattr_prevVol a). rewrite <- H1. exact E.
      * apply (Hnz' E).
    + destruct (Hnz Hne) as [H1 H2]. destruct (Hz' H1) as [H3 _].
      rewrite H3. unfold getattr_prevVol. rewrite H2. simpl. lia.
  - intros Hne. destruct (Hnz Hne). auto.
  - intros ->. destruct (Hz eq_refl) as [H1 _]. split; [exact H1|].
    split.
    + intros Hn. rewrite H1. unfold getattr_prevVol. rewrite Hn. reflexivity.
    + intros m Hm Hr. rewrite H1. unfold getattr_prevVol. rewrite Hm.
      simpl. lia.
Qed.

Lemma toggle_mute_twice_witness :
  0 <= 70 <= 100
  /\ current_volume (init true) = 70
  /\ current_volume (_toggle_mute (_toggle_mute (init true))) = 70.
Proof.
  assert (0 <= 70 <= 100) as H by lia.
  split; [exact H|]. split; [reflexivity|].
  exact (proj1 (toggle_mute_twice (init true) 70 H eq_refl)).
Defined.

(** ** Liking the current song *)

Lemma populate_liked_fields a :
  likedSongs (_populate_liked a) = likedSongs a
  /\ playlist (_populate_liked a) = playlist a
  /\ currentIndex (_populate_liked a) = currentIndex a
  /\ musicLibrary (_populate_liked a) = musicLibrary a
  /\ player (_populate_liked a) = player a.
Proof. unfold _populate_liked. case_match; cbn; auto. Qed.

(** One call of [_toggle_like] with the cursor on [s]. *)
Lemma toggle_like_once a s :
  0 <= currentIndex a ->
  PyList.index (playlist a) (currentIndex a) = Some s ->
  exists a1,
    _toggle_like a = Done a1
    /\ likedSongs a1 =
       (if bool_decide (id s ∈ likedSongs a)
        then likedSongs a ∖ {[id s]} else likedSongs a ∪ {[id s]})
    /\ playlist a1 = playlist a
    /\ currentIndex a1 = currentIndex a.
Proof.
  intros Hc Hs. unfold _toggle_like.
  assert (playlist a <> []) as Hne
    by (intros Hn; rewrite Hn, index_nil in Hs; discriminate).
  assert ((currentIndex a <? 0) = false) as -> by (apply Z.ltb_ge; lia).
  rewrite (bool_decide_eq_false_2 _ Hne), Hs. cbn [orb].
  eexists; split; [reflexivity|].
  destruct (populate_liked_fields
    (if bool_decide (id s ∈ likedSongs a)
     then with_ui
            (fun w => set_likeBtn (QToolButton.setText (likeBtn w) "♡") w)
            (set_likedSongs (likedSongs a ∖ {[id s]}) a)
     else with_ui
            (fun w => set_likeBtn (QToolButton.setText (likeBtn w) "❤") w)
            (set_likedSongs (likedSongs a ∪ {[id s]}) a)))
    as (-> & -> & -> & _).
  destruct (bool_decide (id s ∈ likedSongs a)); cbn; auto.
Qed.

(** C4: with the cursor on a song [s], one call of [_toggle_like] flips
    the membership of [s.id] in [likedSongs] and leaves every other id
    alone, and two calls restore the liked set; with no current song
    (negative cursor or empty queue) the slot changes nothing. *)
Theorem toggle_like_flips a :
  ((currentIndex a < 0 \/ playlist a = []) -> _toggle_like a = Done a)
  /\ (forall s,
        0 <= currentIndex a ->
        PyList.index (playlist a) (currentIndex a) = Some s ->
        exists a1 a2,
          _toggle_like a = Done a1
          /\ _toggle_like a1 = Done a2
          /\ (id s ∈ likedSongs a1 <-> id s ∉ likedSongs a)
          /\ (forall k, k <> id s -> k ∈ likedSongs a1 <-> k ∈ likedSongs a)
          /\ likedSongs a2 = likedSongs a).
Proof.
  split.
  - intros H. unfold _toggle_like.
    destruct H as [H|H].
    + apply Z.ltb_lt in H. now rewrite H.
    + rewrite (bool_decide_eq_true_2 _ H). now rewrite orb_true_r.
  - intros s Hc Hs.
    destruct (toggle_like_once a s Hc Hs) as (a1 & H1 & HL1 & Hp1 & Hc1).
    assert (PyList.index (playlist a1) (currentIndex a1) = Some s) as Hs1
      by (now rewrite Hp1, Hc1).
    assert (0 <= currentIndex a1) as Hc1' by lia.
    destruct (toggle_like_once a1 s Hc1' Hs1) as (a2 & H2 & HL2 & _ & _).
    exists a1, a2. split; [exact H1|]. split; [exact H2|].
    rewrite HL2, HL1. clear.
    destruct (bool_decide (id s ∈ likedSongs a)) eqn:E.
    + apply bool_decide_eq_true in E.
      rewrite bool_decide_eq_false_2 by set_solver.
      split_and!; [set_solver..|].
      apply set_eq. intros k. destruct (decide (k = id s)); set_solver.
    + apply bool_decide_eq_false in E.
      rewrite bool_decide_eq_true_2 by set_solver.
      split_and!; set_solver.
Qed.

Lemma toggle_like_flips_witness :
  0 <= currentIndex (_play_song 1 (init true))
  /\ exists a1 a2,
       _toggle_like (_play_song 1 (init true)) = Done a1
       /\ _toggle_like a1 = Done a2
       /\ likedSongs a2 = likedSongs (_play_song 1 (init true)).
Proof.
  assert (0 <= currentIndex (_play_song 1 (init true))) as H by (cbn; lia).
  split; [exact H|].
  destruct (proj2 (toggle_like_flips (_play_song 1 (init true))) _ H eq_refl)
    as (a1 & a2 & H1 & H2 & _ & _ & H3).
  exists a1, a2. auto.
Defined.

(** ** Play, pause and end of media *)

(** C8, as stated, fails: at start-up with a backend no song was ever
    selected (the transport is [Idle]), yet [_toggle_play] calls
    [play()] on the backend. *)
Lemma toggle_play_idle_counterexample :
  transport (init true) = Idle
  /\ issued (_toggle_play (init true))
     = (issued (init true) ++ [QMediaPlayer.Play])%list
  /\ issued (_toggle_play (init true)) <> issued (init true).
Proof. split; [reflexivity|]. split; [reflexivity|discriminate]. Qed.

(** C8 (amended): with a backend, [_toggle_play] calls [pause()] when
    the backend is playing, which moves Loaded-Playing to Loaded-Paused,
    and [play()] otherwise, which moves Loaded-Paused to Loaded-Playing
    and, when no song was ever selected (the backend is stopped with no
    media), leaves the transport [Idle];
    nothing but the backend changes.  Without a backend it only shows
    the "Audio unavailable" box. *)
Theorem toggle_play_transitions a :
  (forall p,
     player a = Some p -> MULTIMEDIA_AVAILABLE a = true ->
     (transport a = LoadedPlaying ->
      _toggle_play a = set_player (Some (QMediaPlayer.pause p)) a
      /\ transport (_toggle_play a) = LoadedPaused
      /\ issued (_toggle_play a) = (issued a ++ [QMediaPlayer.Pause])%list)
     /\ (transport a = LoadedPaused ->
         _toggle_play a = set_player (Some (QMediaPlayer.play p)) a
         /\ transport (_toggle_play a) = LoadedPlaying
         /\ issued (_toggle_play a) = (issued a ++ [QMediaPlayer.Play])%list)
     /\ (transport a = Idle ->
         QMediaPlayer.state p = QMediaPlayer.StoppedState ->
         _toggle_play a = set_player (Some (QMediaPlayer.play p)) a
         /\ transport (_toggle_play a) = Idle
         /\ issued (_toggle_play a) = (issued a ++ [QMediaPlayer.Play])%list))
  /\ (player a = None ->
      _toggle_play a
      = information "Audio unavailable"
          "Cannot play without multimedia backend." a
      /\ transport (_toggle_play a) = transport a
      /\ issued (_toggle_play a) = issued a
      /\ playlist (_toggle_play a) = playlist a
      /\ currentIndex (_toggle_play a) = currentIndex a
      /\ likedSongs (_toggle_play a) = likedSongs a).
Proof.
  split.
  - intros p Hp Hm. unfold _toggle_play, transport, issued. rewrite Hp, Hm.
    cbn [andb]. destruct p as [st vol med dur cs]. cbn.
    destruct med as [url|]; destruct st; cbn;
      repeat (split || intro); try discriminate; reflexivity.
  - intros Hp. unfold _toggle_play, transport, issued. rewrite Hp. cbn.
    rewrite Hp. repeat split.
Qed.

Lemma toggle_play_transitions_witness :
  player (_play_song 1 (init true))
  = Some (QMediaPlayer.play
            (QMediaPlayer.setMedia (QMediaPlayer.setVolume QMediaPlayer.new 70)
               "https://www.soundjay.com/misc/sounds/bell-ringing-05.wav"))
  /\ MULTIMEDIA_AVAILABLE (_play_song 1 (init true)) = true
  /\ transport (_play_song 1 (init true)) = LoadedPlaying
  /\ transport (_toggle_play (_play_song 1 (init true))) = LoadedPaused.
Proof.
  split; [reflexivity|]. split; [reflexivity|]. split; [reflexivity|].
  exact (proj1 (proj2 (proj1 (proj1
           (toggle_play_transitions (_play_song 1 (init true)))
           _ eq_refl eq_refl) eq_refl))).
Defined.

(** C9: on the end-of-media status with a backend, [_on_media_status]
    calls [setPosition(0)] and [play()] when [isRepeated] is set and
    leaves queue and cursor alone; when it is not set the state is
    unchanged: no call is made and the queue does not advance. *)
Theorem media_ended_repeat a p :
  player a = Some p ->
  MULTIMEDIA_AVAILABLE a = true ->
  (isRepeated a = true ->
   issued (_on_media_status QMediaPlayer.EndOfMedia a)
   = (issued a ++ [QMediaPlayer.SetPosition 0; QMediaPlayer.Play])%list
   /\ playlist (_on_media_status QMediaPlayer.EndOfMedia a) = playlist a
   /\ currentIndex (_on_media_status QMediaPlayer.EndOfMedia a)
      = currentIndex a)
  /\ (isRepeated a = false ->
      _on_media_status QMediaPlayer.EndOfMedia a = a).
Proof.
  intros Hp Hm. unfold _on_media_status, issued. rewrite Hp, Hm.
  rewrite (bool_decide_eq_true_2 _ (eq_refl QMediaPlayer.EndOfMedia)).
  split; intros Hr; rewrite Hr; cbn; [|reflexivity].
  rewrite <- app_assoc. auto.
Qed.

Lemma media_ended_repeat_witness :
  player (_toggle_repeat (init true))
  = Some (QMediaPlayer.setVolume QMediaPlayer.new 70)
  /\ MULTIMEDIA_AVAILABLE (_toggle_repeat (init true)) = true
  /\ isRepeated (_toggle_repeat (init true)) = true
  /\ issued (_on_media_status QMediaPlayer.EndOfMedia
               (_toggle_repeat (init true)))
     = (issued (_toggle_repeat (init true))
        ++ [QMediaPlayer.SetPosition 0; QMediaPlayer.Play])%list.
Proof.
  split; [reflexivity|]. split; [reflexivity|]. split; [reflexivity|].
  exact (proj1 (proj1 (media_ended_repeat (_toggle_repeat (init true)) _
                         eq_refl eq_refl) eq_refl)).
Defined.

(** ** Selecting a song *)

(** What [_play_song] does for an id of the library, the like button
    apart: the queue becomes that one song with the cursor on it, the
    player bar shows it with the pause glyph, and either the backend is
    given the media and told to play, or the "Audio unavailable" box is
    shown. *)
Lemma play_song_known a song_id song :
  PyDict.get (musicLibrary a) song_id = Some song ->
  playlist (_play_song song_id a) = [song]
  /\ currentIndex (_play_song song_id a) = 0
  /\ likedSongs (_play_song song_id a) = likedSongs a
  /\ trackTitle (ui (_play_song song_id a)) = title song
  /\ trackArtist (ui (_play_song song_id a)) = artist song
  /\ playBtn (ui (_play_song song_id a)) = "⏸"
  /\ likeBtn (ui (_play_song song_id a))
     = QToolButton.setChecked (likeBtn (ui a))
         (bool_decide (song_id ∈ likedSongs a))
  /\ (forall p,
        player a = Some p -> MULTIMEDIA_AVAILABLE a = true ->
        player (_play_song song_id a)
        = Some (QMediaPlayer.play (QMediaPlayer.setMedia p (audio song)))
        /\ issued (_play_song song_id a)
           = (issued a
              ++ [QMediaPlayer.SetMedia (audio song); QMediaPlayer.Play])%list
        /\ transport (_play_song song_id a) = LoadedPlaying
        /\ messages (ui (_play_song song_id a)) = messages (ui a))
  /\ (player a = None ->
      player (_play_song song_id a) = None
      /\ transport (_play_song song_id a) = LoadedPlaying
      /\ messages (ui (_play_song song_id a))
         = (messages (ui a)
            ++ [("Audio unavailable",
                 "Audio playback isn't available in this environment. The UI will still work.")])%list).
Proof.
  intros H. unfold _play_song. rewrite H. cbn.
  split_and!.
  - destruct (player a); [destruct (MULTIMEDIA_AVAILABLE a)|]; reflexivity.
  - destruct (player a); [destruct (MULTIMEDIA_AVAILABLE a)|]; reflexivity.
  - destruct (player a); [destruct (MULTIMEDIA_AVAILABLE a)|]; reflexivity.
  - reflexivity.
  - reflexivity.
  - reflexivity.
  - destruct (player a); [destruct (MULTIMEDIA_AVAILABLE a)|]; reflexivity.
  - intros p Hp Hm. unfold issued, transport. rewrite Hp, Hm. cbn.
    rewrite <- app_assoc. split_and!; reflexivity.
  - intros Hp. unfold transport. rewrite Hp. cbn. rewrite Hp.
    split_and!; reflexivity.
Qed.

(** The like button is created without [setCheckable(True)] and no slot
    changes that, so it is never checkable and never checked. *)
Lemma like_button_never_checkable a :
  reachable a ->
  QToolButton.checkable (likeBtn (ui a)) = false
  /\ QToolButton.checked (likeBtn (ui a)) = false.
Proof.
  induction 1 as [m|a e a' _ [IH1 IH2] Hh]; [split; reflexivity|].
  destruct e; cbn [handle] in Hh;
    repeat match goal with
      | H : Done _ = Done _ |- _ => injection H as <-
      end.
  - unfold _play_song. repeat case_match; cbn; unfold QToolButton.setChecked;
      rewrite ?IH1; auto.
  - unfold _toggle_play. repeat case_match; cbn; auto.
  - unfold _prev in Hh. repeat case_match; simplify_eq; auto.
    unfold _play_song. repeat case_match; cbn; unfold QToolButton.setChecked;
      rewrite ?IH1; auto.
  - unfold _next in Hh. repeat case_match; simplify_eq; auto.
    unfold _play_song. repeat case_match; cbn; unfold QToolButton.setChecked;
      rewrite ?IH1; auto.
  - auto.
  - auto.
  - unfold _toggle_like, _populate_liked in Hh.
    repeat case_match; simplify_eq; cbn; auto.
  - unfold _toggle_mute, volume_setValue, _set_volume.
    repeat case_match; cbn; auto.
  - unfold volume_setValue, _set_volume. repeat case_match; cbn; auto.
  - auto.
  - auto.
  - unfold _seek_position. case_match; cbn; auto.
  - unfold _on_search. repeat case_match; cbn; auto.
  - unfold _go_page, _populate_liked. repeat case_match; cbn; auto.
  - unfold _upload_song, _play_song. repeat case_match; cbn;
      unfold QToolButton.setChecked; rewrite ?IH1; auto.
  - unfold _create_playlist. case_match; cbn; auto.
  - unfold on_backend. case_match; cbn; auto.
  - unfold on_backend. case_match; cbn; auto.
  - unfold on_backend. case_match; cbn; auto.
  - unfold on_backend, _on_media_status. repeat case_match; cbn; auto.
Qed.

(** C1 at the failing inputs.  After song 1 is selected and liked (the
    button then reads "❤"), selecting song 1 again leaves the button
    unchecked although 1 is in [likedSongs], and selecting song 2, which
    is not liked, leaves the "❤" text: [setChecked] has no effect on the
    button, which was never made checkable, and [_play_song] does not
    set its text.  The rest of the selection (queue, cursor, backend
    calls) is carried out. *)
Theorem play_song_like_button_stale :
  reachable liked_one
  /\ likedSongs liked_one = {[1]}
  /\ QToolButton.checked (likeBtn (ui (_play_song 1 liked_one))) = false
  /\ QToolButton.text (likeBtn (ui (_play_song 2 liked_one))) = "❤"
  /\ likeBtn (ui (_play_song 2 liked_one)) = likeBtn (ui liked_one)
  /\ currentIndex (_play_song 2 liked_one) = 0
  /\ map id (playlist (_play_song 2 liked_one)) = [2]
  /\ transport (_play_song 2 liked_one) = LoadedPlaying.
Proof.
  split_and!; try (vm_compute; reflexivity).
  apply (reachable_step (_play_song 1 (init true)) LikeBtn);
    [|vm_compute; reflexivity].
  apply (reachable_step (init true) (PlayClicked 1));
    [apply reachable_init | reflexivity].
Qed.

(** ** Search *)

Lemma rstrip_empty_iff s :
  PyStr.rstrip s = "" <-> PyStr.all_space s = true.
Proof.
  induction s as [|c s IH]; cbn; [done|].
  destruct (PyStr.rstrip s) eqn:Er.
  - destruct (PyStr.isspace c); cbn.
    + rewrite <- IH. done.
    + split; discriminate.
  - split; [discriminate|]. intros H. apply andb_true_iff in H as [_ H].
    apply IH in H. discriminate.
Qed.

Lemma all_space_lstrip s :
  PyStr.all_space (PyStr.lstrip s) = PyStr.all_space s.
Proof.
  induction s as [|c s IH]; cbn; [done|].
  destruct (PyStr.isspace c) eqn:E; cbn; [exact IH|now rewrite E].
Qed.

(** [text.strip()] is empty exactly for blank text. *)
Lemma strip_empty_iff s :
  PyStr.strip s = "" <-> PyStr.all_space s = true.
Proof.
  unfold PyStr.strip. rewrite rstrip_empty_iff. now rewrite all_space_lstrip.
Qed.

Lemma truthy_lower s : PyStr.truthy (PyStr.lower s) = PyStr.truthy s.
Proof. now destruct s. Qed.

Lemma truthy_false_iff s : PyStr.truthy s = false <-> s = "".
Proof. destruct s; cbn; split; done. Qed.

Lemma append_cons c s t :
  (String c s ++ t)%string = String c (s ++ t)%string.
Proof. reflexivity. Qed.

Lemma append_nil t : ("" ++ t)%string = t.
Proof. reflexivity. Qed.

Lemma lower_app s t :
  PyStr.lower (s ++ t) = (PyStr.lower s ++ PyStr.lower t)%string.
Proof.
  induction s as [|c s IH]; [done|].
  rewrite append_cons. cbn [PyStr.lower]. now rewrite IH, append_cons.
Qed.

Lemma lower_split f x y :
  PyStr.lower f = (x ++ y)%string ->
  exists a b, f = (a ++ b)%string /\ PyStr.lower a = x /\ PyStr.lower b = y.
Proof.
  revert f. induction x as [|c x IH]; intros f H.
  - exists "", f. auto.
  - destruct f as [|d f]; [discriminate|]. cbn in H. injection H as Hd Hf.
    destruct (IH f Hf) as (a & b & -> & Ha & Hb).
    exists (String d a), b. cbn. rewrite Ha, Hd. auto.
Qed.

Lemma startswith_spec p s :
  PyStr.startswith p s = true <-> exists suf, s = (p ++ suf)%string.
Proof.
  revert s. induction p as [|a p IH]; intros s; cbn [PyStr.startswith].
  - split; [intros _; exists s; reflexivity|done].
  - destruct s as [|b s].
    + split; [discriminate|]. intros [suf H]. rewrite append_cons in H.
      discriminate.
    + destruct (Ascii.eqb_spec a b) as [->|Hne].
      * rewrite IH. split; intros [suf H]; exists suf.
        -- rewrite append_cons. now rewrite H.
        -- rewrite append_cons in H. now injection H.
      * split; [discriminate|]. intros [suf H]. rewrite append_cons in H.
        injection H as H _. congruence.
Qed.

(** [needle in hay] holds exactly when [hay] splits around [needle]. *)
Lemma contains_spec needle hay :
  PyStr.contains needle hay = true
  <-> exists pre suf, hay = (pre ++ needle ++ suf)%string.
Proof.
  induction hay as [|c hay IH]; cbn [PyStr.contains].
  - rewrite orb_false_r, startswith_spec. split.
    + intros [suf H]. exists "", suf. exact H.
    + intros (pre & suf & H). destruct pre as [|d pre].
      * exists suf. exact H.
      * rewrite append_cons in H. discriminate.
  - rewrite orb_true_iff, startswith_spec, IH. split.
    + intros [[suf H]|(pre & suf & H)].
      * exists "", suf. exact H.
      * exists (String c pre), suf. rewrite append_cons. now rewrite H.
    + intros (pre & suf & H). destruct pre as [|d pre].
      * left. exists suf. exact H.
      * right. rewrite append_cons in H. injection H as _ H. eauto.
Qed.

(** Lower-casing both sides and testing [in] is containment up to letter
    case. *)
Lemma ci_contains_iff text field :
  ci_contains text field
  <-> PyStr.contains (PyStr.lower text) (PyStr.lower field) = true.
Proof.
  rewrite contains_spec. unfold ci_contains. split.
  - intros (pre & mid & suf & -> & Hm).
    exists (PyStr.lower pre), (PyStr.lower suf).
    now rewrite !lower_app, Hm.
  - intros (pre & suf & H).
    destruct (lower_split _ _ _ H) as (a & b & -> & Ha & Hb).
    destruct (lower_split _ _ _ Hb) as (m & c & -> & Hm & Hc).
    exists a, m, c. auto.
Qed.

Lemma search_match_iff text s :
  search_match (PyStr.lower text) s = true <-> song_matches text s.
Proof.
  unfold search_match, song_matches.
  rewrite !orb_true_iff, !ci_contains_iff. tauto.
Qed.

Lemma selected_filter {A} (P : A -> Prop) (f : A -> bool) l :
  (forall x, f x = true <-> P x) -> selected P l (List.filter f l).
Proof.
  intros Hf. induction l as [|x l IH]; cbn; [constructor|].
  destruct (f x) eqn:E.
  - apply selected_keep; [now apply Hf|exact IH].
  - apply selected_skip; [|exact IH]. rewrite <- Hf, E. discriminate.
Qed.

Lemma selected_unique {A} (P : A -> Prop) l r1 r2 :
  selected P l r1 -> selected P l r2 -> r1 = r2.
Proof.
  intros H1. revert r2.
  induction H1; intros r2 H2; inversion H2; subst;
    try contradiction; auto.
  f_equal. auto.
Qed.

(** The results shown by [_on_search] for a query that is not blank. *)
Lemma on_search_results text a :
  PyStr.all_space text = false ->
  searchResults (ui (_on_search text a))
  = search_view (PyStr.lower (PyStr.strip text))
      (List.filter (search_match (PyStr.lower (PyStr.strip text)))
         (PyDict.values (musicLibrary a))).
Proof.
  intros Hs. unfold _on_search.
  assert (PyStr.truthy (PyStr.lower (PyStr.strip text)) = true) as ->.
  { rewrite truthy_lower.
    destruct (PyStr.truthy (PyStr.strip text)) eqn:E; [done|].
    apply truthy_false_iff, strip_empty_iff in E. congruence. }
  cbn [negb]. cbn [musicLibrary with_ui set_ui].
  unfold search_view. case_match; reflexivity.
Qed.

(** C7, as stated, fails: for the query " night" (a leading blank) the
    code strips the blank and lists "Night Vibes", whose fields do not
    contain the query as typed. *)
Lemma search_as_stated_counterexample :
  ~ search_as_stated " night" (init true).
Proof.
  intros H. destruct (H eq_refl) as (rs & Hsel & Hres).
  assert (rs = []) as ->.
  { eapply selected_unique; [exact Hsel|].
    replace (@nil Song)
      with (List.filter (search_match (PyStr.lower " night"))
              (PyDict.values (musicLibrary (init true))))
      by (vm_compute; reflexivity).
    apply selected_filter. intros s. apply search_match_iff. }
  vm_compute in Hres. discriminate.
Qed.

(** C7 (amended), for ASCII text over a library whose titles, artists
    and albums are ASCII: blank text gives the "Search for music"
    prompt, which differs from every "No results for ..." label; any
    other text is stripped of surrounding whitespace and the page lists,
    in library order, exactly the songs whose title, artist or album
    contains the stripped text up to letter case, or the "No results"
    label when there is none. *)
Theorem search_trimmed text a :
  isascii text = true ->
  (PyStr.all_space text = true ->
   searchResults (ui (_on_search text a)) = [Label "Search for music"])
  /\ (library_isascii a = true ->
      PyStr.all_space text = false ->
      exists rs,
        selected (song_matches (PyStr.strip text))
          (PyDict.values (musicLibrary a)) rs
        /\ searchResults (ui (_on_search text a))
           = search_view (PyStr.lower (PyStr.strip text)) rs)
  /\ (forall q rs,
        search_view q rs <> [Label "Search for music"]).
Proof.
  intros _. split_and!.
  - intros Hs. unfold _on_search.
    apply strip_empty_iff in Hs. rewrite Hs. reflexivity.
  - intros _ Hs. eexists. split; [|now apply on_search_results].
    apply selected_filter. intros s. apply search_match_iff.
  - intros q [|s rs]; cbn; discriminate.
Qed.

Lemma search_trimmed_witness :
  isascii " POP " = true
  /\ library_isascii (init true) = true
  /\ PyStr.all_space " POP " = false
  /\ exists rs,
       selected (song_matches (PyStr.strip " POP "))
         (PyDict.values (musicLibrary (init true))) rs
       /\ searchResults (ui (_on_search " POP " (init true)))
          = search_view (PyStr.lower (PyStr.strip " POP ")) rs.
Proof.
  split; [reflexivity|]. split; [reflexivity|]. split; [reflexivity|].
  exact (proj1 (proj2 (search_trimmed " POP " (init true) eq_refl))
           eq_refl eq_refl).
Defined.

(** * Further properties of the controller *)

Ltac unfold_slots :=
  unfold _toggle_play, _prev, _next, _toggle_like, _toggle_mute,
    volume_setValue, _set_volume, _seek_position, _on_search, _go_page,
    _upload_song, _create_playlist, on_backend, _on_media_status,
    _on_position_changed, _on_duration_changed, _on_play_state,
    _populate_liked, _show_search_placeholder, _set_search_results,
    _toggle_shuffle, _toggle_repeat, _seeking, _play_song, information,
    getattr_prevVol in *.

Ltac use_player_eq :=
  repeat match goal with
    | H : player ?a = _ |- context [player ?a] => rewrite H
    end.

(** ** Volume, mute button and backend stay in step *)

Lemma volume_view_untouched e a :
  match e with
  | MuteBtn | VolumeMoved _ => True
  | _ => volume_view (state_of (handle e a)) = volume_view a
  end.
Proof.
  destruct e; try exact I; cbn [handle state_of]; unfold volume_view;
    unfold_slots; repeat case_match; cbn in *; use_player_eq; reflexivity.
Qed.

Lemma volume_ok_view a a' :
  volume_view a' = volume_view a -> volume_ok a -> volume_ok a'.
Proof.
  unfold volume_view, volume_ok. intros [= Hm Hp Hv Hb Hq].
  rewrite Hm, Hv, Hb, Hq. intros (H1 & H2 & H3 & H4 & H5).
  assert (forall p, player a' = Some p ->
            exists q, player a = Some q
                      /\ QMediaPlayer.volume q = QMediaPlayer.volume p) as Hpq.
  { intros p Ep. rewrite Ep in Hp. destruct (player a) as [q|]; [|done].
    injection Hp as Hp. eauto. }
  split; [|split; [|auto]].
  - rewrite <- H1. split; intros [p Ep].
    + destruct (Hpq p Ep) as (q & Eq & _). eauto.
    + rewrite Ep in Hp. destruct (player a'); [eauto|done].
  - intros p Ep. destruct (Hpq p Ep) as (q & Eq & <-). now apply H2.
Qed.

Lemma mute_icon_clamp c :
  0 <= c <= 100 -> Z.max 0 (Z.min 100 c) = c.
Proof. lia. Qed.

Lemma set_volume_effect value a :
  volume (ui (_set_volume value a)) = volume (ui a)
  /\ (forall p, player (_set_volume value a) = Some p ->
                QMediaPlayer.volume p = Z.max 0 (Z.min 100 value))
  /\ muteBtn (ui (_set_volume value a))
     = mute_icon (Z.max 0 (Z.min 100 value))
  /\ _prevVol (_set_volume value a) = _prevVol a
  /\ MULTIMEDIA_AVAILABLE (_set_volume value a) = MULTIMEDIA_AVAILABLE a
  /\ (is_Some (player (_set_volume value a)) <-> is_Some (player a)).
Proof.
  unfold _set_volume, mute_icon. set (c := Z.max 0 (Z.min 100 value)).
  assert (Z.max 0 (Z.min 100 c) = c) as Hc by lia.
  assert (forall p q : QMediaPlayer.t,
            Some (QMediaPlayer.setVolume p c) = Some q ->
            QMediaPlayer.volume q = c) as Hq.
  { intros p q [= <-]. exact Hc. }
  destruct (player a) as [p|] eqn:Ep;
    destruct (c =? 0); [|destruct (c <? 50)| |destruct (c <? 50)];
    simpl; rewrite ?Ep;
    (split_and!;
     [reflexivity
     |first [apply Hq | discriminate]
     |reflexivity..
     |first [reflexivity | split; intros _; eexists; reflexivity]]).
Qed.

(** [volume.setValue(v)] from a state whose slider, if it already shows
    the bounded [v], is in step with backend and mute button. *)
Lemma setValue_sync v a :
  let c := Z.max 0 (Z.min 100 v) in
  (c = volume (ui a) ->
   (forall p, player a = Some p -> QMediaPlayer.volume p = c)
   /\ muteBtn (ui a) = mute_icon c) ->
  volume (ui (volume_setValue v a)) = c
  /\ (forall p, player (volume_setValue v a) = Some p ->
                QMediaPlayer.volume p = c)
  /\ muteBtn (ui (volume_setValue v a)) = mute_icon c
  /\ _prevVol (volume_setValue v a) = _prevVol a
  /\ MULTIMEDIA_AVAILABLE (volume_setValue v a) = MULTIMEDIA_AVAILABLE a
  /\ (is_Some (player (volume_setValue v a)) <-> is_Some (player a)).
Proof.
  intros c H. unfold volume_setValue. fold c.
  assert (Z.max 0 (Z.min 100 c) = c) as Hc by (subst c; lia).
  destruct (c =? volume (ui a)) eqn:E.
  - apply Z.eqb_eq in E. destruct (H E) as [H1 H2]. split_and!; auto.
  - destruct (set_volume_effect c (with_ui (set_volume c) a))
      as (H1 & H2 & H3 & H4 & H5 & H6).
    rewrite Hc in H2, H3. split_and!; auto.
Qed.

Lemma volume_ok_setValue v a0 a :
  (Z.max 0 (Z.min 100 v) = volume (ui a) ->
   (forall p, player a = Some p ->
              QMediaPlayer.volume p = Z.max 0 (Z.min 100 v))
   /\ muteBtn (ui a) = mute_icon (Z.max 0 (Z.min 100 v))) ->
  MULTIMEDIA_AVAILABLE a = MULTIMEDIA_AVAILABLE a0 ->
  (is_Some (player a) <-> is_Some (player a0)) ->
  (forall x, _prevVol a = Some x -> 1 <= x <= 100) ->
  volume_ok a0 ->
  volume_ok (volume_setValue v a).
Proof.
  intros Hpre Hm Hs Hq (H1 & _).
  destruct (setValue_sync v a Hpre) as (E1 & E2 & E3 & E4 & E5 & E6).
  unfold volume_ok. split; [|split; [|split; [|split]]].
  - rewrite E5, E6, Hm, Hs. exact H1.
  - intros p Hp. rewrite E1. now apply E2.
  - rewrite E1. lia.
  - now rewrite E1, E3.
  - rewrite E4. exact Hq.
Qed.

Lemma getattr_prevVol_range a :
  (forall v, _prevVol a = Some v -> 1 <= v <= 100) ->
  1 <= getattr_prevVol a <= 100.
Proof.
  unfold getattr_prevVol. destruct (_prevVol a) as [v|]; cbn; [auto|lia].
Qed.

Lemma toggle_mute_volume_ok a : volume_ok a -> volume_ok (_toggle_mute a).
Proof.
  intros Hok. pose proof Hok as (H1 & H2 & H3 & H4 & H5).
  pose proof (getattr_prevVol_range a H5) as Hg.
  unfold _toggle_mute, getattr_prevVol in *.
  destruct (player a) as [p|] eqn:Ep.
  - rewrite (H2 p eq_refl).
    destruct (volume (ui a) =? 0) eqn:E;
      [apply Z.eqb_eq in E|apply Z.eqb_neq in E];
      (apply (volume_ok_setValue _ a);
       [cbn [ui set_player set_prevVol _prevVol]; intros Hc; lia
       |reflexivity
       |cbn [set_player set_prevVol player]; rewrite Ep;
        split; intros _; eexists; reflexivity
       |cbn [set_player set_prevVol _prevVol];
        first [exact H5 | intros x [= <-]; lia]
       |exact Hok]).
  - destruct (volume (ui a) =? 0) eqn:E;
      [apply Z.eqb_eq in E|apply Z.eqb_neq in E];
      (apply (volume_ok_setValue _ a);
       [cbn [ui set_player set_prevVol _prevVol]; intros Hc; lia
       |reflexivity
       |reflexivity
       |cbn [set_player set_prevVol _prevVol];
        first [exact H5 | intros x [= <-]; lia]
       |exact Hok]).
Qed.

Lemma volume_moved_volume_ok v a :
  volume_ok a -> volume_ok (volume_setValue v a).
Proof.
  intros Hok. pose proof Hok as (H1 & H2 & H3 & H4 & H5).
  apply (volume_ok_setValue _ a);
    [intros Hc; rewrite Hc; auto|reflexivity|reflexivity|exact H5|exact Hok].
Qed.

Lemma handle_volume_ok a e a' :
  volume_ok a -> handle e a = Done a' -> volume_ok a'.
Proof.
  intros Hok Hh. pose proof (volume_view_untouched e a) as Hv.
  rewrite Hh in Hv. cbn [state_of] in Hv.
  destruct e; try (eapply volume_ok_view; [exact Hv|exact Hok]);
    cbn [handle] in Hh; injection Hh as <-.
  - now apply toggle_mute_volume_ok.
  - now apply volume_moved_volume_ok.
Qed.

Lemma init_volume_ok multimedia : volume_ok (init multimedia).
Proof.
  destruct multimedia; unfold volume_ok;
    (split; [|split; [|split; [|split]]]).
  - split; intros _; [reflexivity|eexists; reflexivity].
  - intros p [= <-]. reflexivity.
  - cbn. lia.
  - reflexivity.
  - discriminate.
  - split; [intros [p [=]]|discriminate].
  - discriminate.
  - cbn. lia.
  - reflexivity.
  - discriminate.
Qed.

Lemma reachable_volume_ok a :
  reachable a -> volume_ok a.
Proof.
  induction 1 as [m|a e a' _ IH Hh]; [apply init_volume_ok|].
  eapply handle_volume_ok; eauto.
Qed.

(** In every reachable state the volume slider and the backend hold the
    same volume within 0..100, the mute button shows the icon of that
    volume, a backend exists exactly when [MULTIMEDIA_AVAILABLE] is set,
    and a remembered [_prevVol] lies in 1..100. *)
Theorem reachable_volume_in_step a :
  reachable a -> volume_ok a.
Proof. apply reachable_volume_ok. Qed.

Lemma reachable_volume_in_step_witness :
  reachable (_toggle_mute (init true))
  /\ volume_ok (_toggle_mute (init true)).
Proof.
  assert (reachable (_toggle_mute (init true))) as H.
  { apply (reachable_step (init true) MuteBtn);
      [apply reachable_init | reflexivity]. }
  split; [exact H|]. exact (reachable_volume_in_step _ H).
Defined.

Lemma mute_icon_cases c :
  (mute_icon c = "🔇" <-> c = 0)
  /\ (mute_icon c = "🔈" <-> c <> 0 /\ c < 50)
  /\ (mute_icon c = "🔊" <-> c <> 0 /\ 50 <= c).
Proof.
  unfold mute_icon.
  destruct (Z.eqb_spec c 0) as [->|Hne]; [|destruct (Z.ltb_spec c 50)];
    (split_and!; split; try discriminate; try lia; try done;
     intros [? ?]; lia).
Qed.

(** [_set_volume] bounds the requested value to 0..100 before it calls
    the backend: the one call issued is [setVolume(c)] with [c] within
    0..100, equal to 0 for values at or below 0, to 100 for values at or
    above 100, and to the value itself in between; without a backend no
    call is made.  The mute button is set by the bounded value: muted
    at 0, low below 50, normal from 50 up. *)
Theorem set_volume_bounds value a :
  (forall p,
     player a = Some p ->
     exists c,
       player (_set_volume value a) = Some (QMediaPlayer.setVolume p c)
       /\ issued (_set_volume value a)
          = (QMediaPlayer.calls p ++ [QMediaPlayer.SetVolume c])%list
       /\ 0 <= c <= 100
       /\ (value <= 0 -> c = 0)
       /\ (100 <= value -> c = 100)
       /\ (0 <= value <= 100 -> c = value))
  /\ (player a = None -> player (_set_volume value a) = None)
  /\ (forall p,
        player (_set_volume value a) = Some p ->
        0 <= QMediaPlayer.volume p <= 100
        /\ (value <= 0 -> QMediaPlayer.volume p = 0)
        /\ (100 <= value -> QMediaPlayer.volume p = 100)
        /\ (0 <= value <= 100 -> QMediaPlayer.volume p = value))
  /\ (muteBtn (ui (_set_volume value a)) = "🔇" <-> value <= 0)
  /\ (muteBtn (ui (_set_volume value a)) = "🔈" <-> 1 <= value < 50)
  /\ (muteBtn (ui (_set_volume value a)) = "🔊" <-> 50 <= value).
Proof.
  destruct (set_volume_effect value a) as (_ & H2 & H3 & _).
  destruct (mute_icon_cases (Z.max 0 (Z.min 100 value))) as (M1 & M2 & M3).
  rewrite H3, M1, M2, M3.
  split; [|split; [|split; [|split_and!; lia]]].
  - intros p Hp. exists (Z.max 0 (Z.min 100 value)).
    unfold issued, _set_volume. rewrite Hp.
    destruct (Z.max 0 (Z.min 100 value) =? 0);
      [|destruct (Z.max 0 (Z.min 100 value) <? 50)];
      (split; [reflexivity|]; split; [reflexivity|]; lia).
  - intros Hp. unfold _set_volume. rewrite Hp.
    destruct (Z.max 0 (Z.min 100 value) =? 0);
      [|destruct (Z.max 0 (Z.min 100 value) <? 50)]; exact Hp.
  - intros p Hp. rewrite (H2 p Hp). lia.
Qed.

(** In a reachable state with the volume up, muting shows the muted
    icon with slider and backend at 0, and muting again brings slider,
    backend volume and icon back to what they were. *)
Theorem mute_round_trip_display a :
  reachable a ->
  volume (ui a) <> 0 ->
  volume (ui (_toggle_mute a)) = 0
  /\ muteBtn (ui (_toggle_mute a)) = "🔇"
  /\ current_volume (_toggle_mute a) = 0
  /\ volume (ui (_toggle_mute (_toggle_mute a))) = volume (ui a)
  /\ current_volume (_toggle_mute (_toggle_mute a)) = volume (ui a)
  /\ muteBtn (ui (_toggle_mute (_toggle_mute a))) = muteBtn (ui a).
Proof.
  intros Hr Hv.
  pose proof (reachable_volume_ok a Hr) as Hok.
  pose proof (toggle_mute_volume_ok a Hok) as Hok1.
  pose proof (toggle_mute_volume_ok _ Hok1) as Hok2.
  assert (forall b, volume_ok b -> current_volume b = volume (ui b)) as Hcv.
  { intros b (_ & H2 & _). unfold current_volume.
    destruct (player b) as [p|]; [now apply H2|done]. }
  destruct (toggle_mute_once a) as [Hnz _].
  rewrite (Hcv a Hok) in Hnz. destruct (Hnz Hv) as [E1 E2].
  destruct (toggle_mute_once (_toggle_mute a)) as [_ Hz].
  destruct (Hz E1) as [E3 _].
  assert (getattr_prevVol (_toggle_mute a) = volume (ui a)) as Eg
    by (unfold getattr_prevVol; rewrite E2; reflexivity).
  rewrite Eg in E3.
  destruct Hok as (_ & _ & Hrange & Hicon & _).
  rewrite Z.max_r, Z.min_r in E3 by lia.
  pose proof (Hcv _ Hok1) as C1. pose proof (Hcv _ Hok2) as C2.
  rewrite C1 in E1. rewrite C2 in E3.
  destruct Hok1 as (_ & _ & _ & Hicon1 & _).
  destruct Hok2 as (_ & _ & _ & Hicon2 & _).
  split; [exact E1|]. split; [now rewrite Hicon1, E1|].
  split; [now rewrite C1|]. split; [exact E3|].
  split; [now rewrite C2|]. now rewrite Hicon2, E3, Hicon.
Qed.

Lemma mute_round_trip_display_witness :
  reachable (init true)
  /\ volume (ui (init true)) <> 0
  /\ volume (ui (_toggle_mute (_toggle_mute (init true)))) = 70.
Proof.
  assert (volume (ui (init true)) <> 0) as H by (cbn; lia).
  split; [apply reachable_init|]. split; [exact H|].
  exact (proj1 (proj2 (proj2 (proj2
           (mute_round_trip_display _ (reachable_init true) H))))).
Defined.

(** ** The library *)

Lemma dict_get_set_ne {V} (d : list (Z * V)) k k' v :
  k <> k' -> PyDict.get (PyDict.set d k v) k' = PyDict.get d k'.
Proof.
  intros Hne. induction d as [|[k0 v0] d IH]; cbn.
  - destruct (Z.eqb_spec k' k); [congruence|reflexivity].
  - destruct (Z.eqb_spec k k0) as [->|H0]; cbn.
    + destruct (Z.eqb_spec k' k0); [congruence|reflexivity].
    + destruct (Z.eqb_spec k' k0); [reflexivity|exact IH].
Qed.

Lemma dict_get_None {V} (d : list (Z * V)) k :
  PyDict.get d k = None <-> k ∉ PyDict.keys d.
Proof.
  induction d as [|[k0 v0] d IH]; cbn.
  - split; [intros _; apply not_elem_of_nil|done].
  - rewrite not_elem_of_cons.
    destruct (Z.eqb_spec k k0) as [->|Hne].
    + split; [discriminate|]. intros [H _]. done.
    + rewrite IH. tauto.
Qed.

Lemma dict_get_Some_key {V} (d : list (Z * V)) k v :
  PyDict.get d k = Some v -> k ∈ PyDict.keys d.
Proof.
  intros H. destruct (decide (k ∈ PyDict.keys d)) as [|Hn]; [done|].
  apply dict_get_None in Hn. congruence.
Qed.

Lemma dict_set_fresh {V} (d : list (Z * V)) k v :
  PyDict.get d k = None -> PyDict.set d k v = (d ++ [(k, v)])%list.
Proof.
  induction d as [|[k0 v0] d IH]; cbn; [done|].
  destruct (Z.eqb_spec k k0); [discriminate|]. intros H. now rewrite IH.
Qed.

Lemma fold_max_ge ks k0 :
  k0 <= fold_left Z.max ks k0
  /\ forall k, k ∈ ks -> k <= fold_left Z.max ks k0.
Proof.
  revert k0. induction ks as [|k1 ks IH]; intros k0; cbn.
  - split; [lia|]. intros k Hk. now apply elem_of_nil in Hk.
  - destruct (IH (Z.max k0 k1)) as [H1 H2]. split; [lia|].
    intros k Hk. apply elem_of_cons in Hk as [->|Hk]; [lia|auto].
Qed.

Lemma max_key_ge {V} (d : list (Z * V)) dflt k :
  k ∈ PyDict.keys d -> k <= PyDict.max_key d dflt.
Proof.
  unfold PyDict.max_key. destruct (PyDict.keys d) as [|k0 ks]; intros Hk.
  - now apply elem_of_nil in Hk.
  - destruct (fold_max_ge ks k0) as [H1 H2].
    apply elem_of_cons in Hk as [->|Hk]; auto.
Qed.

Lemma max_key_fresh {V} (d : list (Z * V)) dflt :
  PyDict.get d (PyDict.max_key d dflt + 1) = None.
Proof.
  apply dict_get_None. intros Hk. apply (max_key_ge d dflt) in Hk. lia.
Qed.

Lemma keys_app {V} (d1 d2 : list (Z * V)) :
  PyDict.keys (d1 ++ d2) = (PyDict.keys d1 ++ PyDict.keys d2)%list.
Proof. unfold PyDict.keys. apply map_app. Qed.

Lemma dict_get_app_l {V} (d1 d2 : list (Z * V)) k v :
  PyDict.get d1 k = Some v -> PyDict.get (d1 ++ d2) k = Some v.
Proof.
  induction d1 as [|[k0 v0] d1 IH]; cbn; [discriminate|].
  destruct (Z.eqb k k0); auto.
Qed.

Lemma index_Some_elem {A} (l : list A) i x :
  PyList.index l i = Some x -> x ∈ l.
Proof.
  unfold PyList.index. repeat case_match; try discriminate;
    intros Hx; eapply list_elem_of_lookup_2; exact Hx.
Qed.

(** What an accepted upload does to the state. *)
Lemma upload_effect titl url this_year a :
  let new_id := PyDict.max_key (musicLibrary a) 1000 + 1 in
  let song :=
    mkSong new_id titl "Local File" "Uploads" "" url "" "" this_year false in
  let a' := _upload_song (Some (titl, url)) this_year a in
  PyDict.get (musicLibrary a) new_id = None
  /\ musicLibrary a' = (musicLibrary a ++ [(new_id, song)])%list
  /\ playlist a' = [song]
  /\ currentIndex a' = 0
  /\ likedSongs a' = likedSongs a.
Proof.
  intros new_id song a'.
  pose proof (max_key_fresh (musicLibrary a) 1000) as Hf. fold new_id in Hf.
  split; [exact Hf|]. subst a'. unfold _upload_song. fold new_id. fold song.
  assert (PyDict.get (musicLibrary
            (set_musicLibrary (PyDict.set (musicLibrary a) new_id song) a))
            new_id = Some song) as Hg by apply dict_get_set_eq.
  destruct (play_song_found _ _ _ Hg) as (-> & -> & -> & ->).
  cbn [musicLibrary set_musicLibrary likedSongs].
  rewrite (dict_set_fresh _ _ _ Hf). auto.
Qed.

(** Every slot but the upload leaves the library as it is. *)
Lemma library_untouched e a :
  match e with
  | Upload _ _ => True
  | _ => musicLibrary (state_of (handle e a)) = musicLibrary a
  end.
Proof.
  destruct e; try exact I; cbn [handle state_of];
    unfold_slots; repeat case_match; reflexivity.
Qed.

(** Library, queue and liked set are touched only by selecting,
    skipping, liking and uploading. *)
Lemma library_view_untouched e a :
  match e with
  | PlayClicked _ | PrevBtn | NextBtn | LikeBtn | Upload _ _ => True
  | _ =>
      musicLibrary (state_of (handle e a)) = musicLibrary a
      /\ playlist (state_of (handle e a)) = playlist a
      /\ likedSongs (state_of (handle e a)) = likedSongs a
  end.
Proof.
  destruct e; try exact I; cbn [handle state_of];
    unfold_slots; repeat case_match; auto.
Qed.

Lemma library_ok_view a a' :
  musicLibrary a' = musicLibrary a -> playlist a' = playlist a ->
  likedSongs a' = likedSongs a -> library_ok a -> library_ok a'.
Proof. unfold library_ok. intros -> -> ->. auto. Qed.

Lemma play_song_library_ok song_id a :
  library_ok a -> library_ok (_play_song song_id a).
Proof.
  intros Hok. pose proof Hok as (H1 & H2 & H3 & H4).
  destruct (PyDict.get (musicLibrary a) song_id) as [song|] eqn:Hg.
  - destruct (play_song_found a song_id song Hg) as (Hp & _ & Hl & Hm).
    unfold library_ok. rewrite Hp, Hl, Hm. split_and!; auto.
    intros s Hs. apply list_elem_of_singleton in Hs as ->.
    now rewrite (H2 _ _ Hg).
  - now rewrite (play_song_missing a song_id Hg).
Qed.

Lemma toggle_like_library_ok a a' :
  library_ok a -> _toggle_like a = Done a' -> library_ok a'.
Proof.
  intros Hok Hh. pose proof Hok as (H1 & H2 & H3 & H4).
  unfold _toggle_like in Hh.
  destruct ((currentIndex a <? 0) || bool_decide (playlist a = []));
    [now injection Hh as <-|].
  destruct (PyList.index (playlist a) (currentIndex a)) as [s|] eqn:Hs;
    [|discriminate].
  injection Hh as <-. apply index_Some_elem in Hs.
  destruct (populate_liked_fields
    (if bool_decide (id s ∈ likedSongs a)
     then with_ui
            (fun w => set_likeBtn (QToolButton.setText (likeBtn w) "♡") w)
            (set_likedSongs (likedSongs a ∖ {[id s]}) a)
     else with_ui
            (fun w => set_likeBtn (QToolButton.setText (likeBtn w) "❤") w)
            (set_likedSongs (likedSongs a ∪ {[id s]}) a)))
    as (EL & EP & _ & EM & _).
  unfold library_ok. rewrite EL, EP, EM.
  destruct (bool_decide (id s ∈ likedSongs a)); cbn; split_and!; auto.
  - intros k Hk. apply H4. set_solver.
  - intros k Hk. apply elem_of_union in Hk as [Hk|Hk]; [auto|].
    apply elem_of_singleton in Hk as ->. rewrite (H3 s Hs). eauto.
Qed.

Lemma upload_library_ok sel this_year a :
  library_ok a -> library_ok (_upload_song sel this_year a).
Proof.
  intros Hok. destruct sel as [[titl url]|]; [|exact Hok].
  pose proof Hok as (H1 & H2 & H3 & H4).
  destruct (upload_effect titl url this_year a) as (Hf & Em & Ep & _ & El).
  unfold library_ok. rewrite Em, Ep, El.
  split_and!.
  - rewrite keys_app. apply NoDup_app. split; [exact H1|].
    split; [|apply NoDup_singleton].
    intros k Hk Hk'. apply list_elem_of_singleton in Hk'. subst k.
    now apply dict_get_None in Hf.
  - intros k s Hg.
    destruct (PyDict.get (musicLibrary a) k) as [s0|] eqn:E.
    + rewrite (dict_get_app_l _ _ _ _ E) in Hg. injection Hg as <-. eauto.
    + rewrite <- (dict_set_fresh _ _ _ Hf) in Hg.
      destruct (decide (PyDict.max_key (musicLibrary a) 1000 + 1 = k))
        as [<-|Hne].
      * rewrite dict_get_set_eq in Hg. now injection Hg as <-.
      * rewrite dict_get_set_ne in Hg by done. congruence.
  - intros s Hs. apply list_elem_of_singleton in Hs as ->. cbn [id].
    rewrite <- (dict_set_fresh _ _ _ Hf). apply dict_get_set_eq.
  - intros k Hk. destruct (H4 k Hk) as [s Hs].
    exists s. now apply dict_get_app_l.
Qed.

Lemma handle_library_ok a e a' :
  library_ok a -> handle e a = Done a' -> library_ok a'.
Proof.
  intros Hok Hh. pose proof (library_view_untouched e a) as Hv.
  rewrite Hh in Hv. cbn [state_of] in Hv.
  destruct e;
    try (destruct Hv as (? & ? & ?); eapply library_ok_view; eauto; fail);
    cbn [handle] in Hh.
  - injection Hh as <-. now apply play_song_library_ok.
  - unfold _prev in Hh. repeat case_match; simplify_eq; [|done].
    apply play_song_library_ok. eapply library_ok_view; eauto.
  - unfold _next in Hh. repeat case_match; simplify_eq; [|done].
    apply play_song_library_ok. eapply library_ok_view; eauto.
  - eapply toggle_like_library_ok; eauto.
  - injection Hh as <-. now apply upload_library_ok.
Qed.

Lemma init_library_ok multimedia : library_ok (init multimedia).
Proof.
  unfold library_ok. split_and!.
  - cbn. repeat constructor; set_solver.
  - intros k s. cbn.
    repeat (case_match; [intros [= <-]; zbool; cbn; lia|]). discriminate.
  - cbn. intros s Hs. now apply elem_of_nil in Hs.
  - cbn. intros k Hk. now apply elem_of_empty in Hk.
Qed.

Lemma reachable_library_ok a : reachable a -> library_ok a.
Proof.
  induction 1 as [m|a e a' _ IH Hh]; [apply init_library_ok|].
  eapply handle_library_ok; eauto.
Qed.


(** No slot removes or replaces a library entry: after any event the
    library is the old one with entries appended (none, except for an
    upload), so every id that could be looked up still gives the same
    song. *)
Theorem library_append_only e a :
  exists added,
    musicLibrary (state_of (handle e a)) = (musicLibrary a ++ added)%list
    /\ forall k s, PyDict.get (musicLibrary a) k = Some s ->
                   PyDict.get (musicLibrary (state_of (handle e a))) k
                   = Some s.
Proof.
  pose proof (library_untouched e a) as Hu.
  destruct e;
    try (exists []; rewrite Hu, app_nil_r; split; [reflexivity|auto]; fail).
  cbn [handle state_of]. destruct sel as [[titl url]|].
  - destruct (upload_effect titl url this_year a) as (_ & Em & _).
    eexists. split; [exact Em|]. intros k s Hg. rewrite Em.
    now apply dict_get_app_l.
  - exists []. cbn. rewrite app_nil_r. auto.
Qed.

(** In every reachable state the library keys are distinct, every song
    is stored under its own id, each queued song is the library's entry
    for its id, and every liked id is a library key. *)
Theorem reachable_library_consistent a :
  reachable a -> library_ok a.
Proof. apply reachable_library_ok. Qed.

Lemma reachable_library_consistent_witness :
  reachable liked_one /\ library_ok liked_one.
Proof.
  assert (reachable liked_one) as H.
  { apply (reachable_step (_play_song 1 (init true)) LikeBtn);
      [|vm_compute; reflexivity].
    apply (reachable_step (init true) (PlayClicked 1));
      [apply reachable_init | reflexivity]. }
  split; [exact H|]. exact (reachable_library_consistent _ H).
Defined.

(** In a reachable state, selecting a library id [k] queues the song
    whose own id is [k], so that liking it next flips the membership of
    [k] itself in the liked set. *)
Theorem select_then_like a k song :
  reachable a ->
  PyDict.get (musicLibrary a) k = Some song ->
  id song = k
  /\ playlist (_play_song k a) = [song]
  /\ exists a1,
       _toggle_like (_play_song k a) = Done a1
       /\ (k ∈ likedSongs a1 <-> k ∉ likedSongs a).
Proof.
  intros Hr Hg. destruct (reachable_library_ok a Hr) as (_ & H2 & _).
  pose proof (H2 k song Hg) as Hid.
  destruct (play_song_found a k song Hg) as (Hp & Hc & Hl & _).
  split; [exact Hid|]. split; [exact Hp|].
  destruct (toggle_like_once (_play_song k a) song) as (a1 & H1 & HL & _).
  { rewrite Hc. lia. }
  { rewrite Hp, Hc. reflexivity. }
  exists a1. split; [exact H1|]. rewrite HL, Hl, Hid.
  destruct (bool_decide (k ∈ likedSongs a)) eqn:E.
  - apply bool_decide_eq_true in E. set_solver.
  - apply bool_decide_eq_false in E. set_solver.
Qed.

Lemma select_then_like_witness :
  reachable (init false)
  /\ PyDict.get (musicLibrary (init false)) 3
     = Some (mkSong 3 "Rock Classics" "Rock Legends" "Greatest Hits"
               "https://i.scdn.co/image/ab67616d0000b273d911c299fbb92c28e9a99217"
               "https://www.soundjay.com/misc/sounds/bell-ringing-05.wav"
               "4:12" "Rock" 2024 false)
  /\ exists a1,
       _toggle_like (_play_song 3 (init false)) = Done a1
       /\ (3 ∈ likedSongs a1 <-> 3 ∉ likedSongs (init false)).
Proof.
  split; [apply reachable_init|]. split; [reflexivity|].
  exact (proj2 (proj2 (select_then_like (init false) 3 _
                         (reachable_init false) eq_refl))).
Defined.

(** After [_toggle_like] on a current song in a reachable state, the
    Liked Songs page is rebuilt from the new liked set: it shows
    "No liked songs yet" when the set is empty and otherwise one row for
    each liked id, none dropped. *)
Theorem liked_page_follows_like a a1 :
  reachable a ->
  0 <= currentIndex a ->
  playlist a <> [] ->
  _toggle_like a = Done a1 ->
  likedView (ui a1)
  = (if decide (likedSongs a1 = ∅) then NoLikedYet
     else LikedRows (likedSongs a1)).
Proof.
  intros Hr Hc Hne Hh.
  pose proof (toggle_like_library_ok a a1 (reachable_library_ok a Hr) Hh)
    as (_ & _ & _ & H4).
  unfold _toggle_like in Hh.
  assert ((currentIndex a <? 0) = false) as E1 by (apply Z.ltb_ge; lia).
  rewrite E1, (bool_decide_eq_false_2 _ Hne) in Hh. cbn [orb] in Hh.
  destruct (PyList.index (playlist a) (currentIndex a)) as [s|];
    [|discriminate].
  injection Hh as Hh.
  match type of Hh with _populate_liked ?b = _ => set (a0 := b) in * end.
  destruct (populate_liked_fields a0) as (EL & _ & _ & EM & _).
  rewrite <- Hh in H4 |- *. rewrite EL, EM in H4. rewrite EL.
  assert (filter (fun i => is_Some (PyDict.get (musicLibrary a0) i))
            (likedSongs a0) = likedSongs a0) as Ef.
  { apply set_eq. intros k. rewrite elem_of_filter. split; [tauto|].
    intros Hk. split; [now apply H4|exact Hk]. }
  unfold _populate_liked. rewrite Ef.
  destruct (decide (likedSongs a0 = ∅)); reflexivity.
Qed.

Lemma liked_page_follows_like_witness :
  reachable (_play_song 1 (init true))
  /\ likedView (ui liked_one) = LikedRows {[1]}.
Proof.
  assert (reachable (_play_song 1 (init true))) as H.
  { apply (reachable_step (init true) (PlayClicked 1));
      [apply reachable_init | reflexivity]. }
  split; [exact H|].
  assert (0 <= currentIndex (_play_song 1 (init true))) as Hc by (cbn; lia).
  assert (playlist (_play_song 1 (init true)) <> []) as Hne by discriminate.
  assert (_toggle_like (_play_song 1 (init true)) = Done liked_one) as Hh
    by (vm_compute; reflexivity).
  rewrite (liked_page_follows_like _ _ H Hc Hne Hh).
  vm_compute. reflexivity.
Defined.

(** ** Stripping and lower-casing *)

Lemma lstrip_head s :
  PyStr.lstrip s = ""
  \/ exists c r, PyStr.lstrip s = String c r /\ PyStr.isspace c = false.
Proof.
  induction s as [|c s IH]; cbn; [now left|].
  destruct (PyStr.isspace c) eqn:E; [exact IH|]. right. eauto.
Qed.

Lemma rstrip_cons_nonspace c s :
  PyStr.isspace c = false ->
  PyStr.rstrip (String c s) = String c (PyStr.rstrip s).
Proof. intros E. cbn. rewrite E. now destruct (PyStr.rstrip s). Qed.

Lemma rstrip_idem s : PyStr.rstrip (PyStr.rstrip s) = PyStr.rstrip s.
Proof.
  induction s as [|c s IH]; [done|]. cbn [PyStr.rstrip].
  destruct (PyStr.rstrip s) as [|d r] eqn:Er.
  - destruct (PyStr.isspace c) eqn:E; [done|]. cbn. now rewrite E.
  - cbn [PyStr.rstrip] in *. now rewrite IH.
Qed.

(** [strip] is idempotent: a stripped string has no whitespace left at
    either end. *)
Lemma strip_idem s : PyStr.strip (PyStr.strip s) = PyStr.strip s.
Proof.
  unfold PyStr.strip.
  destruct (lstrip_head s) as [->|(c & r & -> & E)]; [done|].
  rewrite (rstrip_cons_nonspace c r E). cbn [PyStr.lstrip]. rewrite E.
  rewrite (rstrip_cons_nonspace c _ E). now rewrite rstrip_idem.
Qed.







(** ** Search page *)


(** ** Playlists *)

Lemma create_playlist_cases name ok now a :
  ((ok = false \/ PyStr.all_space name = true) ->
   _create_playlist name ok now a = a)
  /\ (ok = true -> PyStr.all_space name = false ->
      userPlaylists (_create_playlist name ok now a)
      = (userPlaylists a ++ [mkPlaylist now (PyStr.strip name) [] ""])%list
      /\ playlistList (ui (_create_playlist name ok now a))
         = (playlistList (ui a) ++ [PyStr.strip name])%list
      /\ PyStr.strip name <> ""
      /\ playlist (_create_playlist name ok now a) = playlist a
      /\ currentIndex (_create_playlist name ok now a) = currentIndex a
      /\ musicLibrary (_create_playlist name ok now a) = musicLibrary a
      /\ likedSongs (_create_playlist name ok now a) = likedSongs a).
Proof.
  unfold _create_playlist. split.
  - intros [->|Hs]; [reflexivity|].
    apply strip_empty_iff in Hs. rewrite Hs. cbn. now rewrite orb_true_r.
  - intros -> Hs.
    assert (PyStr.strip name <> "") as Hne
      by (rewrite strip_empty_iff; congruence).
    assert (PyStr.truthy (PyStr.strip name) = true) as ->.
    { destruct (PyStr.truthy (PyStr.strip name)) eqn:E; [done|].
      now apply truthy_false_iff in E. }
    cbn. split_and!; auto.
Qed.

(** For an ASCII name, [_create_playlist] does nothing when the dialog
    is cancelled or the name is blank.  Otherwise it appends one
    playlist to [userPlaylists], with the stripped name (which is not
    empty), the given timestamp as id, no songs and an empty
    description, and adds the same name to the sidebar list; playlists
    already stored keep their place, and queue, library and liked set
    are untouched. *)
Theorem create_playlist_effect name ok now a :
  isascii name = true ->
  ((ok = false \/ PyStr.all_space name = true) ->
   _create_playlist name ok now a = a)
  /\ (ok = true -> PyStr.all_space name = false ->
      userPlaylists (_create_playlist name ok now a)
      = (userPlaylists a ++ [mkPlaylist now (PyStr.strip name) [] ""])%list
      /\ playlistList (ui (_create_playlist name ok now a))
         = (playlistList (ui a) ++ [PyStr.strip name])%list
      /\ PyStr.strip name <> ""
      /\ playlist (_create_playlist name ok now a) = playlist a
      /\ currentIndex (_create_playlist name ok now a) = currentIndex a
      /\ musicLibrary (_create_playlist name ok now a) = musicLibrary a
      /\ likedSongs (_create_playlist name ok now a) = likedSongs a).
Proof. intros _. apply create_playlist_cases. Qed.

Lemma create_playlist_effect_witness :
  isascii "  Road trip " = true
  /\ PyStr.all_space "  Road trip " = false
  /\ userPlaylists (_create_playlist "  Road trip " true 1700000000000
                      (init true))
     = [mkPlaylist 1700000000000 "Road trip" [] ""].
Proof.
  split; [reflexivity|]. split; [reflexivity|].
  exact (proj1 (proj2 (create_playlist_effect "  Road trip " true
                         1700000000000 (init true) eq_refl)
                  eq_refl eq_refl)).
Defined.

Lemma playlists_untouched e a :
  match e with
  | CreatePlaylist _ _ _ => True
  | _ =>
      userPlaylists (state_of (handle e a)) = userPlaylists a
      /\ playlistList (ui (state_of (handle e a))) = playlistList (ui a)
  end.
Proof.
  destruct e; try exact I; cbn [handle state_of];
    unfold_slots; repeat case_match; auto.
Qed.

Lemma create_playlist_ok name ok now a :
  playlists_ok a -> playlists_ok (_create_playlist name ok now a).
Proof.
  intros [H1 H2].
  destruct (create_playlist_cases name ok now a) as [Hno Hyes].
  destruct ok; [|now rewrite Hno by auto].
  destruct (PyStr.all_space name) eqn:Hs; [now rewrite Hno by auto|].
  destruct (Hyes eq_refl eq_refl) as (E1 & E2 & Hne & _).
  unfold playlists_ok. rewrite E1, E2, H1, map_app. split; [reflexivity|].
  apply Forall_app. split; [exact H2|]. constructor; [|constructor].
  cbn. split; [reflexivity|]. split; [exact Hne|apply strip_idem].
Qed.

Lemma reachable_playlists_ok a : reachable a -> playlists_ok a.
Proof.
  induction 1 as [m|a e a' _ IH Hh].
  - split; [reflexivity|constructor].
  - pose proof (playlists_untouched e a) as Hu.
    assert (a' = state_of (handle e a)) as -> by now rewrite Hh.
    destruct e;
      try (destruct Hu as [E1 E2]; unfold playlists_ok;
           rewrite E1, E2; exact IH).
    cbn [handle state_of]. now apply create_playlist_ok.
Qed.

(** In every reachable state the sidebar list shows the names of
    [userPlaylists] in creation order, and every stored playlist has no
    songs and a name that is not empty and carries no whitespace at
    either end. *)
Theorem reachable_playlists_mirror a :
  reachable a -> playlists_ok a.
Proof. apply reachable_playlists_ok. Qed.

Lemma reachable_playlists_mirror_witness :
  reachable (_create_playlist " Mix " true 5 (init false))
  /\ playlists_ok (_create_playlist " Mix " true 5 (init false)).
Proof.
  assert (reachable (_create_playlist " Mix " true 5 (init false))) as H.
  { apply (reachable_step (init false) (CreatePlaylist " Mix " true 5));
      [apply reachable_init | reflexivity]. }
  split; [exact H|]. exact (reachable_playlists_mirror _ H).
Defined.

(** ** Shuffle and repeat flags *)

(** [isShuffled] is only ever toggled: for every event other than the
    shuffle button, handling it with the flag set either way gives the
    same result, flag aside.  [isRepeated] is read by the media-status
    callback alone. *)
Theorem shuffle_repeat_flags_inert e b a :
  (e <> ShuffleBtn ->
   handle e (set_isShuffled b a) = outcome_map (set_isShuffled b) (handle e a))
  /\ (e <> RepeatBtn ->
      (forall status, e <> MediaStatusChanged status) ->
      handle e (set_isRepeated b a)
      = outcome_map (set_isRepeated b) (handle e a)).
Proof.
  split.
  - intros Hne. destruct e; try congruence; cbn [handle outcome_map];
      unfold_slots;
      cbn -[Z.eqb Z.ltb Z.max Z.min Z.add Z.sub Z.of_nat];
      repeat (case_match;
              cbn -[Z.eqb Z.ltb Z.max Z.min Z.add Z.sub Z.of_nat] in * );
      simplify_eq; try congruence; reflexivity.
  - intros Hne Hms. destruct e; try congruence;
      try (exfalso; eapply Hms; reflexivity);
      cbn [handle outcome_map];
      unfold_slots;
      cbn -[Z.eqb Z.ltb Z.max Z.min Z.add Z.sub Z.of_nat];
      repeat (case_match;
              cbn -[Z.eqb Z.ltb Z.max Z.min Z.add Z.sub Z.of_nat] in * );
      simplify_eq; try congruence; reflexivity.
Qed.

Lemma shuffle_repeat_flags_inert_witness :
  NextBtn <> ShuffleBtn
  /\ handle NextBtn (set_isShuffled true two_queued)
     = outcome_map (set_isShuffled true) (handle NextBtn two_queued).
Proof.
  assert (NextBtn <> ShuffleBtn) as H by discriminate.
  split; [exact H|].
  exact (proj1 (shuffle_repeat_flags_inert NextBtn true two_queued) H).
Defined.

(** ** Card grids and the home page *)

Lemma grid_loop_lookup {A} cols (items : list A) r c i w :
  0 < cols -> 0 <= c < cols ->
  items !! i = Some w ->
  grid_loop cols items r c !! i
  = Some (r + (c + Z.of_nat i) / cols, (c + Z.of_nat i) mod cols, w).
Proof.
  intros Hcols. revert r c i.
  induction items as [|x items IH]; intros r c i Hc Hi; [done|].
  destruct i as [|i].
  - injection Hi as ->. cbn [grid_loop].
    change (Z.of_nat 0) with 0.
    rewrite Z.add_0_r, Z.div_small, Z.mod_small by lia.
    now rewrite Z.add_0_r.
  - change ((x :: items) !! S i) with (items !! i) in Hi.
    change (grid_loop cols (x :: items) r c !! S i)
      with ((if cols <=? c + 1 then grid_loop cols items (r + 1) 0
             else grid_loop cols items r (c + 1)) !! i).
    destruct (Z.leb_spec cols (c + 1)) as [Hw|Hw].
    + rewrite (IH (r + 1) 0 i) by (auto; lia).
      replace (c + Z.of_nat (S i)) with (Z.of_nat i + 1 * cols) by lia.
      rewrite Z.div_add, Z_mod_plus_full by lia.
      rewrite Z.add_0_l. do 2 f_equal. f_equal. lia.
    + rewrite (IH r (c + 1) i) by (auto; lia).
      replace (c + 1 + Z.of_nat i) with (c + Z.of_nat (S i)) by lia.
      reflexivity.
Qed.

Lemma omap_length_le {A B} (f : A -> option B) l :
  (length (omap f l) <= length l)%nat.
Proof.
  induction l as [|x l IH]; cbn; [lia|]. destruct (f x); cbn; lia.
Qed.

Lemma grid_loop_length {A} cols (items : list A) r c :
  length (grid_loop cols items r c) = length items.
Proof.
  revert r c. induction items as [|x items IH]; intros r c; cbn; [done|].
  now destruct (cols <=? c + 1); rewrite IH.
Qed.

(** [_fill_cards] lays the cards out row by row, four to a row: the
    card of the song at position [i] goes to row [i / 4], column
    [i mod 4], and there is one card per song. *)
Theorem fill_cards_grid songs :
  _fill_cards songs
  = imap (fun i s => (Z.of_nat i / 4, Z.of_nat i mod 4, s)) songs.
Proof.
  apply list_eq. intros i. rewrite list_lookup_imap. unfold _fill_cards.
  destruct (songs !! i) as [s|] eqn:E; cbn.
  - rewrite (grid_loop_lookup 4 songs 0 0 i s) by (auto; lia).
    now rewrite !Z.add_0_l.
  - apply lookup_ge_None. rewrite grid_loop_length.
    now apply lookup_ge_None.
Qed.

Lemma dict_get_app_r {V} (d1 d2 : list (Z * V)) k :
  k ∉ PyDict.keys d1 -> PyDict.get (d1 ++ d2) k = PyDict.get d2 k.
Proof.
  induction d1 as [|[k0 v0] d1 IH]; cbn; [done|].
  rewrite not_elem_of_cons. intros [Hne Hk].
  destruct (Z.eqb_spec k k0); [done|auto].
Qed.

Lemma omap_get_keys {V} (pre d : list (Z * V)) n :
  NoDup (PyDict.keys (pre ++ d)) ->
  omap (PyDict.get (pre ++ d)) (take n (PyDict.keys d))
  = take n (PyDict.values d).
Proof.
  revert pre n. induction d as [|[k v] d IH]; intros pre n Hnd.
  - now destruct n.
  - destruct n as [|n]; [done|]. cbn.
    assert (k ∉ PyDict.keys pre) as Hk.
    { rewrite keys_app in Hnd. apply NoDup_app in Hnd as (_ & Hd & _).
      intros Hin. apply (Hd k Hin). cbn. apply elem_of_cons. now left. }
    rewrite (dict_get_app_r pre _ k Hk). cbn. rewrite Z.eqb_refl. f_equal.
    specialize (IH (pre ++ [(k, v)])%list n).
    rewrite <- app_assoc in IH. cbn in IH. now apply IH.
Qed.

(** In a reachable state the "recent" grid of the home page shows the
    first six songs of the library in insertion order, and the two
    fixed grids show at most four cards each: an id that is not in the
    library is skipped, never looked up. *)
Theorem home_page_grids a :
  reachable a ->
  fst (fst (_populate_home a))
  = _fill_cards (take 6 (PyDict.values (musicLibrary a)))
  /\ (length (snd (fst (_populate_home a))) <= 4)%nat
  /\ (length (snd (_populate_home a)) <= 4)%nat.
Proof.
  intros Hr. destruct (reachable_library_ok a Hr) as (Hnd & _).
  unfold _populate_home, songs_of, _fill_cards. cbn [fst snd].
  rewrite !grid_loop_length. split_and!.
  - f_equal. apply (omap_get_keys [] (musicLibrary a) 6 Hnd).
  - apply (omap_length_le _ [1; 2; 3; 4]).
  - apply (omap_length_le _ [2; 3; 1; 4]).
Qed.

Lemma home_page_grids_witness :
  reachable (init true)
  /\ map (fun x => id (snd x)) (fst (fst (_populate_home (init true))))
     = [1; 2; 3; 4].
Proof.
  split; [apply reachable_init|].
  rewrite (proj1 (home_page_grids _ (reachable_init true))).
  reflexivity.
Defined.

(** ** Play button pressed twice *)

Lemma toggle_play_backend a p :
  player a = Some p ->
  MULTIMEDIA_AVAILABLE a = true ->
  _toggle_play a
  = set_player
      (Some (if bool_decide (QMediaPlayer.state p = QMediaPlayer.PlayingState)
             then QMediaPlayer.pause p else QMediaPlayer.play p)) a.
Proof.
  intros Hp Hm. unfold _toggle_play. rewrite Hp, Hm. cbn [andb].
  now destruct (bool_decide _).
Qed.

(** With a backend and a song loaded, pressing the play button twice
    brings the transport back to where it was: playing is paused and
    resumed, paused is played and paused again.  The two backend calls
    are issued in that order and the queue is not touched. *)
Theorem toggle_play_twice a p :
  player a = Some p ->
  MULTIMEDIA_AVAILABLE a = true ->
  (transport a = LoadedPlaying ->
   transport (_toggle_play (_toggle_play a)) = LoadedPlaying
   /\ issued (_toggle_play (_toggle_play a))
      = (issued a ++ [QMediaPlayer.Pause; QMediaPlayer.Play])%list)
  /\ (transport a = LoadedPaused ->
      transport (_toggle_play (_toggle_play a)) = LoadedPaused
      /\ issued (_toggle_play (_toggle_play a))
         = (issued a ++ [QMediaPlayer.Play; QMediaPlayer.Pause])%list)
  /\ playlist (_toggle_play (_toggle_play a)) = playlist a
  /\ currentIndex (_toggle_play (_toggle_play a)) = currentIndex a.
Proof.
  intros Hp Hm. rewrite (toggle_play_backend a p Hp Hm).
  erewrite toggle_play_backend; [|reflexivity|exact Hm].
  unfold transport, issued. rewrite Hp. cbn [player set_player].
  destruct p as [st vol med dur cs].
  destruct med as [url|]; destruct st;
    repeat (cbn;
            first [rewrite bool_decide_eq_true_2 by reflexivity
                  |rewrite bool_decide_eq_false_2 by discriminate]);
    cbn; rewrite <- ?app_assoc;
    (split; [|split; [|split; reflexivity]]); intros Ht;
    try discriminate Ht; split; reflexivity.
Qed.

Lemma toggle_play_twice_witness :
  MULTIMEDIA_AVAILABLE (_play_song 2 (init true)) = true
  /\ transport (_play_song 2 (init true)) = LoadedPlaying
  /\ transport (_toggle_play (_toggle_play (_play_song 2 (init true))))
     = LoadedPlaying.
Proof.
  split; [reflexivity|]. split; [reflexivity|].
  exact (proj1 (proj1 (toggle_play_twice (_play_song 2 (init true)) _
                         eq_refl eq_refl) eq_refl)).
Defined.

(** ** Time labels *)

(** [_format_time] shows a time of [m] minutes and [s] seconds as [m],
    a colon, and [s] padded to two digits, whatever the milliseconds
    beyond the full second; a negative or sub-second time shows as
    "0:00". *)
Theorem format_time_minutes_seconds :
  (forall m s r,
     0 <= m -> 0 <= s < 60 -> 0 <= r < 1000 ->
     _format_time (60000 * m + 1000 * s + r)
     = (pretty m ++ ":"
        ++ (if (s <? 10)%Z then "0" ++ pretty s else pretty s))%string)
  /\ (forall ms, ms < 1000 -> _format_time ms = "0:00").
Proof.
  split.
  - intros m s r Hm Hs Hr. unfold _format_time.
    assert ((60000 * m + 1000 * s + r) / 1000 = 60 * m + s) as ->
      by (symmetry; apply (Z.div_unique _ _ _ r); lia).
    rewrite Z.max_r by lia.
    assert ((60 * m + s) / 60 = m) as ->
      by (symmetry; apply (Z.div_unique _ _ _ s); lia).
    assert ((60 * m + s) mod 60 = s) as ->
      by (symmetry; apply (Z.mod_unique _ _ m); lia).
    reflexivity.
  - intros ms Hms. unfold _format_time.
    assert (ms / 1000 <= 0) as Hq
      by (apply Z.lt_succ_r, Z.div_lt_upper_bound; lia).
    rewrite Z.max_l by lia. reflexivity.
Qed.

Lemma format_time_minutes_seconds_witness :
  0 <= 2 /\ 0 <= 5 < 60 /\ 0 <= 250 < 1000
  /\ _format_time 125250 = "2:05".
Proof.
  assert (0 <= 2) as H1 by lia. assert (0 <= 5 < 60) as H2 by lia.
  assert (0 <= 250 < 1000) as H3 by lia.
  split; [exact H1|]. split; [exact H2|]. split; [exact H3|].
  exact (proj1 format_time_minutes_seconds 2 5 250 H1 H2 H3).
Defined.

(** ** More on selection and search *)

Lemma like_button_never_checkable_witness :
  reachable liked_one
  /\ QToolButton.checkable (likeBtn (ui liked_one)) = false
  /\ QToolButton.checked (likeBtn (ui liked_one)) = false.
Proof.
  assert (reachable liked_one) as H.
  { apply (reachable_step (_play_song 1 (init true)) LikeBtn);
      [|vm_compute; reflexivity].
    apply (reachable_step (init true) (PlayClicked 1));
      [apply reachable_init | reflexivity]. }
  split; [exact H|]. exact (like_button_never_checkable _ H).
Defined.

Lemma play_song_known_witness :
  PyDict.get (musicLibrary (init false)) 4
  = Some (mkSong 4 "Lofi Chill" "Study Vibes" "Focus Music"
            "https://i.scdn.co/image/ab67616d0000b273f76b3f8afcd46e3f9ec99438"
            "https://www.soundjay.com/misc/sounds/bell-ringing-05.wav"
            "3:20" "Lofi" 2024 false)
  /\ map id (playlist (_play_song 4 (init false))) = [4]
  /\ currentIndex (_play_song 4 (init false)) = 0.
Proof.
  split; [reflexivity|].
  destruct (play_song_known (init false) 4 _ eq_refl) as (Hp & Hc & _).
  split; [now rewrite Hp|exact Hc].
Defined.

Lemma lstrip_suffix s : exists pre, s = (pre ++ PyStr.lstrip s)%string.
Proof.
  induction s as [|c s [pre IH]]; cbn; [now exists ""|].
  destruct (PyStr.isspace c).
  - exists (String c pre). rewrite append_cons. now rewrite <- IH.
  - now exists "".
Qed.

Lemma append_empty_r s : (s ++ "")%string = s.
Proof.
  induction s as [|c s IH]; [done|]. rewrite append_cons. now rewrite IH.
Qed.

Lemma rstrip_prefix s : exists suf, s = (PyStr.rstrip s ++ suf)%string.
Proof.
  induction s as [|c s [suf IH]]; cbn; [now exists ""|].
  destruct (PyStr.rstrip s) as [|d r] eqn:Er.
  - rewrite append_nil in IH. subst suf.
    destruct (PyStr.isspace c).
    + now exists (String c s).
    + exists s. reflexivity.
  - exists suf. rewrite append_cons. now rewrite <- IH.
Qed.

Lemma append_assoc s t u :
  ((s ++ t) ++ u)%string = (s ++ t ++ u)%string.
Proof.
  induction s as [|c s IH]; [done|]. rewrite !append_cons. now rewrite IH.
Qed.

(** The stripped text is a piece of the text itself. *)
Lemma strip_substring s : ci_contains (PyStr.strip s) s.
Proof.
  destruct (lstrip_suffix s) as [pre Hp].
  destruct (rstrip_prefix (PyStr.lstrip s)) as [suf Hs].
  exists pre, (PyStr.strip s), suf. split; [|reflexivity].
  unfold PyStr.strip. rewrite <- Hs. exact Hp.
Qed.

Lemma search_view_rows q rs s :
  s ∈ rs -> ListRow s ∈ search_view q rs.
Proof.
  intros Hs. unfold search_view. destruct rs as [|x rs].
  - now apply elem_of_nil in Hs.
  - apply list_elem_of_fmap. eauto.
Qed.

(** Every song of the library whose title is ASCII and not blank is
    found by searching for its own title: its row is among the
    results. *)
Theorem search_finds_own_title a s :
  s ∈ PyDict.values (musicLibrary a) ->
  isascii (title s) = true ->
  PyStr.all_space (title s) = false ->
  ListRow s ∈ searchResults (ui (_on_search (title s) a)).
Proof.
  intros Hs _ Hb. rewrite (on_search_results _ _ Hb).
  apply search_view_rows. apply list_elem_of_In, filter_In.
  split; [now apply list_elem_of_In|].
  apply search_match_iff. left. apply strip_substring.
Qed.

Lemma search_finds_own_title_witness :
  isascii " my take.v2 " = true
  /\ PyStr.all_space " my take.v2 " = false
  /\ exists s,
       title s = " my take.v2 "
       /\ ListRow s
          ∈ searchResults
              (ui (_on_search " my take.v2 "
                     (_upload_song (Some (" my take.v2 ", "file:///t.mp3"))
                        2025 (init true)))).
Proof.
  split; [reflexivity|]. split; [reflexivity|].
  eexists (mkSong 5 " my take.v2 " "Local File" "Uploads" ""
             "file:///t.mp3" "" "" 2025 false).
  split; [reflexivity|].
  apply (search_finds_own_title
           (_upload_song (Some (" my take.v2 ", "file:///t.mp3")) 2025
              (init true))
           (mkSong 5 " my take.v2 " "Local File" "Uploads" ""
              "file:///t.mp3" "" "" 2025 false)).
  - apply list_elem_of_In. vm_compute. do 4 right. left. reflexivity.
  - reflexivity.
  - reflexivity.
Defined.

(** ** Playlists page *)

(** In a reachable state the playlists page shows the
    "No custom playlists yet" label while no playlist exists, and
    otherwise one card per playlist in creation order, three to a row,
    each with the playlist's name and the count "0 songs": no slot ever
    adds a song to a playlist. *)
Theorem playlists_page_cards a :
  reachable a ->
  (userPlaylists a = [] ->
   _populate_playlists a = [(0, 0, PlaylistsLabel "No custom playlists yet")])
  /\ (userPlaylists a <> [] ->
      _populate_playlists a
      = imap (fun i p =>
                (Z.of_nat i / 3, Z.of_nat i mod 3,
                 PlaylistCard (pl_name p) (pl_description p) "0 songs"))
          (userPlaylists a)).
Proof.
  intros Hr. destruct (reachable_playlists_ok a Hr) as [_ Hf].
  unfold _populate_playlists. split; [now intros ->|]. intros Hne.
  destruct (userPlaylists a) as [|p0 ps] eqn:E; [done|].
  apply list_eq. intros i. rewrite list_lookup_imap.
  destruct ((p0 :: ps) !! i) as [p|] eqn:Ei; cbn [fmap option_fmap option_map].
  - erewrite (grid_loop_lookup 3 _ 0 0 i); [|lia|lia|].
    + rewrite !Z.add_0_l. reflexivity.
    + rewrite list_lookup_fmap, Ei. cbn.
      rewrite Forall_forall in Hf.
      destruct (Hf p) as (-> & _); [|reflexivity].
      eapply list_elem_of_lookup_2; exact Ei.
  - apply lookup_ge_None. rewrite grid_loop_length, length_fmap.
    now apply lookup_ge_None.
Qed.

Lemma playlists_page_cards_witness :
  reachable (_create_playlist "Gym" true 7 (init true))
  /\ _populate_playlists (_create_playlist "Gym" true 7 (init true))
     = [(0, 0, PlaylistCard "Gym" "" "0 songs")].
Proof.
  assert (reachable (_create_playlist "Gym" true 7 (init true))) as H.
  { apply (reachable_step (init true) (CreatePlaylist "Gym" true 7));
      [apply reachable_init | reflexivity]. }
  split; [exact H|].
  rewrite (proj2 (playlists_page_cards _ H)) by discriminate.
  reflexivity.
Defined.

(** ** Instances of the statements above *)

Lemma set_volume_bounds_witness :
  player (init true) = Some (QMediaPlayer.setVolume QMediaPlayer.new 70)
  /\ exists c,
       issued (_set_volume 150 (init true))
       = (QMediaPlayer.calls (QMediaPlayer.setVolume QMediaPlayer.new 70)
          ++ [QMediaPlayer.SetVolume c])%list
       /\ 0 <= c <= 100.
Proof.
  split; [reflexivity|].
  destruct (proj1 (set_volume_bounds 150 (init true)) _ eq_refl)
    as (c & _ & Hi & Hc & _).
  exists c. split; [exact Hi|exact Hc].
Defined.


Lemma library_append_only_witness :
  exists added,
    musicLibrary
      (state_of (handle (Upload (Some ("t", "file:///t.mp3")) 2025)
                   (init true)))
    = (musicLibrary (init true) ++ added)%list.
Proof.
  destruct (library_append_only (Upload (Some ("t", "file:///t.mp3")) 2025)
              (init true)) as (added & H & _).
  exists added. exact H.
Defined.
